(** * seqdd: job-graph construction, rate-limit gates and the download driver

    A shallow embedding of
    - [seqdd/downloaders/ncbi.py]       (class [NCBI]),
    - [seqdd/register/sources/sra.py]   (class [SRA]),
    - [seqdd/utils/download.py]         ([DownloadManager.download_to], [check_binary]),
    together with the properties the specification states about them.

    Python objects live in a store ([World]); methods are functions in a
    state-and-exception monad over that store. *)

From Stdlib Require Import PrimFloat Ascii String.
From stdpp Require Import base option list strings gmap pretty.

Open Scope string_scope.
Open Scope list_scope.

(** ** Python strings and [os.path] *)

Module Py.

(** [s.split(sep)] with an explicit one-character separator: every occurrence
    of [sep] cuts, empty fields are kept. *)
Fixpoint split (sep : ascii) (s : string) : list string :=
  match s with
  | EmptyString => [""]
  | String c s' =>
      if Ascii.eqb c sep then "" :: split sep s'
      else match split sep s' with
           | [] => [String c ""]
           | w :: ws => String c w :: ws
           end
  end.

(** [sep.join(words)] *)
Definition join (sep : string) (words : list string) : string :=
  String.concat sep words.

(** [s.startswith(p)] *)
Definition startswith (s p : string) : bool := String.prefix p s.

(** [s.endswith("/")] *)
Fixpoint ends_with_slash (s : string) : bool :=
  match s with
  | EmptyString => false
  | String c EmptyString => Ascii.eqb c "/"
  | String _ s' => ends_with_slash s'
  end.

(** [posixpath.join(a, b)] *)
Definition path_join (a b : string) : string :=
  if startswith b "/" then b
  else if String.eqb a "" || ends_with_slash a then a +:+ b
  else a +:+ "/" +:+ b.

(** [str(n)] / [f'{n}'] for a non-negative integer *)
Definition str_of_nat (n : nat) : string := pretty n.

(** [f'{x}'] where [x] is a string or [None] *)
Definition fmt_opt (x : option string) : string :=
  match x with Some s => s | None => "None" end.

(** [c in s] for a one-character [c] *)
Fixpoint contains_char (c : ascii) (s : string) : bool :=
  match s with
  | EmptyString => false
  | String d s' => Ascii.eqb d c || contains_char c s'
  end.

End Py.

(** ** Exceptions *)

Inductive Exn : Set :=
  | FileExistsError
  | FileNotFoundError
  | NotADirectoryError
  | PermissionError
  | TypeError
  | KeyError
  | IndexError.

(** ** The file system

    A location is the list of names leading to it from the root, after the
    operating system has resolved the path string; the resolution itself
    (working directory, dots) is a parameter [resolve] of everything that
    takes a path string. *)

Module FS.

Abbreviation loc := (list string) (only parsing).

Inductive node : Set := Dir | File.

Abbreviation t := (gmap loc node).

(** all prefixes of a location, the location itself included *)
Fixpoint inits (p : loc) : list loc :=
  [] :: match p with
        | [] => []
        | x :: p' => map (cons x) (inits p')
        end.

(** [os.path.exists] *)
Definition exists_ (p : loc) (m : t) : bool :=
  match m !! p with Some _ => true | None => false end.

(** some proper ancestor of [p] is a regular file *)
Definition blocked (p : loc) (m : t) : bool :=
  existsb (fun q => bool_decide (q ≠ p) &&
                    match m !! q with Some File => true | _ => false end)
          (inits p).

(** [os.makedirs(p, exist_ok=...)]: creates [p] and its missing ancestors *)
Definition makedirs (exist_ok : bool) (p : loc) (m : t) : Exn + t :=
  if blocked p m then inl NotADirectoryError
  else match m !! p with
       | Some Dir => if exist_ok then inr m else inl FileExistsError
       | Some File => inl FileExistsError
       | None => inr (foldr (fun q acc => <[q := Dir]> acc) m (inits p))
       end.

(** [shutil.rmtree(p)]: removes [p] and everything below it *)
Definition rmtree (p : loc) (m : t) : Exn + t :=
  match m !! p with
  | None => inl FileNotFoundError
  | Some File => inl NotADirectoryError
  | Some Dir => inr (filter (fun kv => ¬ p `prefix_of` kv.1) m)
  end.

End FS.


(** ** Jobs

    Modelled from the spec: [seqdd/utils/scheduler.py] (classes [Job],
    [CmdLineJob], [FunctionJob], [JobManager]) is not among the sources.  A
    job carries what the spec's Task carries: its kind (a command line, or a
    callable with its arguments), the references to its parents, an optional
    gate ([can_start]) and an optional name.  Its identifier is its address in
    the store, assigned at creation.  A constructor stores the parents it is
    given in a list of the new job's own.  A reference may be [None], as any
    Python reference. *)

Module Scheduler.

(** a reference to a job: its address in the store *)
Abbreviation job_ref := nat (only parsing).

(** the bound methods handed over as [can_start] *)
Inductive Gate : Set := NCBI_ncbi_delay_ready | SRA_sra_delay_ready.

(** the bound methods handed over to [FunctionJob] *)
Inductive Func : Set :=
  | NCBI_clean
  | SRA_move_and_clean
  | SRA_run_fasterqdump_from_SRXP.

Inductive Kind : Set :=
  | Command (command_line : string)
  | Callable (func_to_run : Func) (func_args : list string).

Record Job : Set := mkJob {
  kind : Kind;
  parents : list (option job_ref);
  can_start : option Gate;
  name : option string;
}.

Definition with_parents (ps : list (option job_ref)) (j : Job) : Job :=
  {| kind := kind j; parents := ps; can_start := can_start j; name := name j |}.

(** what [download_to] does with the [JobManager] it builds, and its naps *)
Inductive Action : Set :=
  | JobManager_new (max_process : nat) (log_folder : option string)
  | start
  | add_job (j : option job_ref)
  | remaining_jobs (reply : nat)
  | sleep (seconds : nat)
  | stop
  | join.

End Scheduler.

Import Scheduler.

(** ** Results and the state-and-exception monad

    A computation over a store [S] returns, raises (the store keeps the
    effects made so far) or, for a [while] loop run with a bound on its
    iterations, is cut short. *)

Inductive Result (S A : Type) : Type :=
  | Returned (a : A) (s : S)
  | Raised (e : Exn) (s : S)
  | Unfinished (s : S).
Arguments Returned {S A} a s.
Arguments Raised {S A} e s.
Arguments Unfinished {S A} s.

Definition M (S A : Type) : Type := S -> Result S A.

Definition ret {S A} (a : A) : M S A := fun s => Returned a s.

Definition raise {S A} (e : Exn) : M S A := fun s => Raised e s.

Definition bind {S A B} (m : M S A) (k : A -> M S B) : M S B :=
  fun s => match m s with
           | Returned a s' => k a s'
           | Raised e s' => Raised e s'
           | Unfinished s' => Unfinished s'
           end.

Definition final_state {S A} (r : Result S A) : S :=
  match r with Returned _ s | Raised _ s | Unfinished s => s end.

Declare Scope M_scope.
Delimit Scope M_scope with M.
Notation "'let*' x ':=' m 'in' k" := (bind m (fun x => k))
  (at level 10, x pattern, m at level 100, k at level 200) : M_scope.
Notation "m ';;' k" := (bind m (fun _ => k))
  (at level 100, k at level 200, right associativity) : M_scope.
Open Scope M_scope.

(** [for x in l: acc = body(acc, x)] *)
Fixpoint for_each {S A B} (l : list A) (body : B -> A -> M S B) (acc : B) : M S B :=
  match l with
  | [] => ret acc
  | x :: l' => let* acc' := body acc x in for_each l' body acc'
  end.

(** [range(0, stop, step)] *)
Definition range_step (stop step : nat) : list nat :=
  (fun k => k * step) <$> seq 0 ((stop + step - 1) / step).

(** ** The store *)

Record World : Type := mkWorld {
  fs : FS.t;                       (* the file system *)
  heap : list Job;                 (* the Job objects, by address *)
  ncbi_joib_id : nat;              (* the class attribute NCBI.ncbi_joib_id *)
  logger_level : nat;              (* threshold of the logging.Logger *)
  logged : list (nat * string);    (* records it has emitted *)
}.

Definition set_fs (m : FS.t) (w : World) : World :=
  {| fs := m; heap := heap w; ncbi_joib_id := ncbi_joib_id w;
     logger_level := logger_level w; logged := logged w |}.
Definition set_heap (h : list Job) (w : World) : World :=
  {| fs := fs w; heap := h; ncbi_joib_id := ncbi_joib_id w;
     logger_level := logger_level w; logged := logged w |}.
Definition set_ncbi_joib_id (n : nat) (w : World) : World :=
  {| fs := fs w; heap := heap w; ncbi_joib_id := n;
     logger_level := logger_level w; logged := logged w |}.
Definition set_logged (l : list (nat * string)) (w : World) : World :=
  {| fs := fs w; heap := heap w; ncbi_joib_id := ncbi_joib_id w;
     logger_level := logger_level w; logged := l |}.

Section Primitives.

(** how the operating system resolves a path string to a location *)
Variable resolve : string -> FS.loc.

Definition fs_update (f : FS.t -> Exn + FS.t) : M World unit :=
  fun w => match f (fs w) with
           | inr m => Returned tt (set_fs m w)
           | inl e => Raised e w
           end.

Definition path_exists (p : string) : M World bool :=
  fun w => Returned (FS.exists_ (resolve p) (fs w)) w.

Definition makedirs (p : string) (exist_ok : bool) : M World unit :=
  fs_update (FS.makedirs exist_ok (resolve p)).

Definition rmtree (p : string) : M World unit :=
  fs_update (FS.rmtree (resolve p)).

End Primitives.

(** object creation: the new job gets the next free address *)
Definition new_job (j : Job) : M World job_ref :=
  fun w => Returned (length (heap w)) (set_heap (heap w ++ [j]) w).

(** [CmdLineJob(command_line, parents=..., can_start=..., name=...)] *)
Definition CmdLineJob (command_line : string) (ps : list (option job_ref))
    (gate : option Gate) (nm : option string) : M World job_ref :=
  new_job {| kind := Command command_line; parents := ps;
             can_start := gate; name := nm |}.

(** [FunctionJob(func_to_run, func_args=..., parents=..., name=...)] *)
Definition FunctionJob (f : Func) (args : list string)
    (ps : list (option job_ref)) (gate : option Gate) (nm : option string)
  : M World job_ref :=
  new_job {| kind := Callable f args; parents := ps;
             can_start := gate; name := nm |}.

(** [job.parents.append(p)] *)
Definition parents_append (job : job_ref) (p : option job_ref) : M World unit :=
  fun w => match heap w !! job with
           | Some j => Returned tt
                         (set_heap (<[job := with_parents (parents j ++ [p]) j]> (heap w)) w)
           | None => Raised TypeError w
           end.

(** [logging] levels *)
Definition INFO : nat := 20.
Definition WARNING : nat := 30.

(** [logger.info(msg)] *)
Definition logger_info (msg : string) : M World unit :=
  fun w => if (logger_level w <=? INFO)%nat
           then Returned tt (set_logged (logged w ++ [(INFO, msg)]) w)
           else Returned tt w.

(** [logger.warning(msg, file=stderr)]: [Logger.warning] hands its keywords
    to [Logger._log], which knows no [file]. *)
Definition logger_warning_file (msg : string) : M World unit :=
  fun w => if (logger_level w <=? WARNING)%nat then Raised TypeError w
           else Returned tt w.

(** ** [threading.Lock] and [time.time]

    Time stamps are double-precision floats, as Python's are, and their
    subtraction and comparison are those of the processor; a clock is the
    sequence of values its successive readings will give.  The integers [0]
    and [1] that the code mixes with them stand for the floats of the same
    value. *)

Module Lock.

(** [true]: held *)
Definition t := bool.

(** [mutex.acquire(blocking=False)]: never waits *)
Definition acquire_nonblocking (l : t) : bool * t :=
  if l then (false, l) else (true, true).

(** [mutex.release()] *)
Definition release (l : t) : t := false.

End Lock.

Definition Clock := nat -> float.

(** [time.time()] *)
Definition time_time (c : Clock) : float * Clock :=
  (c 0%nat, fun n => c (S n)).

(** [x > y] *)
Definition float_gt (x y : float) : bool := (y <? x)%float.

(** ** [seqdd/downloaders/ncbi.py] *)

Module NCBI.

Record t : Type := mk {
  tmp_dir : string;
  bin_dir : string;
  mutex : Lock.t;
  bin : option string;
  last_ncbi_query : float;
}.

Definition set_mutex (l : Lock.t) (self : t) : t :=
  {| tmp_dir := tmp_dir self; bin_dir := bin_dir self; mutex := l;
     bin := bin self; last_ncbi_query := last_ncbi_query self |}.
Definition set_last_ncbi_query (q : float) (self : t) : t :=
  {| tmp_dir := tmp_dir self; bin_dir := bin_dir self; mutex := mutex self;
     bin := bin self; last_ncbi_query := q |}.

Definition is_ready (self : t) : bool :=
  match bin self with Some _ => true | None => false end.

Definition ncbi_delay_ready (self : t) (clock : Clock) : bool * t * Clock :=
  let min_delay := 1%float in
  let '(locked, m) := Lock.acquire_nonblocking (mutex self) in
  let self := set_mutex m self in
  if locked then
    let '(now, clock) := time_time clock in
    let ready := float_gt (now - last_ncbi_query self) min_delay in
    let '(self, clock) :=
      if ready then
        let '(now', clock) := time_time clock in
        (set_last_ncbi_query now' self, clock)
      else (self, clock) in
    let self := set_mutex (Lock.release (mutex self)) self in
    (ready, self, clock)
  else (false, self, clock).

Section Jobs.

Variable resolve : string -> FS.loc.

(** reading [NCBI.ncbi_joib_id] *)
Definition get_joib_id : M World nat := fun w => Returned (ncbi_joib_id w) w.

(** [NCBI.ncbi_joib_id += 1] *)
Definition incr_joib_id : M World unit :=
  fun w => Returned tt (set_ncbi_joib_id (ncbi_joib_id w + 1) w).

(** [path.join(self.tmp_dir, f'ncbi_{NCBI.ncbi_joib_id}')] *)
Definition batch_tmp_dir (self : t) (id : nat) : string :=
  Py.path_join (tmp_dir self) ("ncbi_" +:+ Py.str_of_nat id).

(** [f'ncbi_job_{NCBI.ncbi_joib_id}'] *)
Definition batch_job_name (id : nat) : string :=
  "ncbi_job_" +:+ Py.str_of_nat id.

(** the three command lines *)
Definition download_command (self : t) (download_file : string)
    (acc_slice : list string) : string :=
  Py.fmt_opt (bin self)
    +:+ " download genome accession --dehydrated --filename "
    +:+ download_file +:+ " " +:+ Py.join " " acc_slice.

Definition unzip_command (download_file unzip_dir : string) : string :=
  "unzip " +:+ download_file +:+ " -d " +:+ unzip_dir.

Definition rehydrate_command (self : t) (unzip_dir : string) : string :=
  Py.fmt_opt (bin self)
    +:+ " rehydrate --gzip --no-progressbar --directory " +:+ unzip_dir.

(** the body of the loop over the batches *)
Definition batch_jobs (self : t) (accessions : list string) (dest_dir : string)
    (all_jobs : list (option job_ref)) (idx : nat)
  : M World (list (option job_ref)) :=
  let* id := get_joib_id in
  let tmp_dir := batch_tmp_dir self id in
  makedirs resolve tmp_dir true ;;
  let* id := get_joib_id in
  let job_name := batch_job_name id in
  incr_joib_id ;;
  let acc_slice := take 5 (drop idx accessions) in
  let download_file := Py.path_join tmp_dir (job_name +:+ ".zip") in
  let* download_job :=
    CmdLineJob (download_command self download_file acc_slice)
               [] (Some NCBI_ncbi_delay_ready) None in
  let unzip_dir := Py.path_join tmp_dir job_name in
  let* unzip_job :=
    CmdLineJob (unzip_command download_file unzip_dir)
               [Some download_job] None None in
  let* rehydrate_job :=
    CmdLineJob (rehydrate_command self unzip_dir)
               [Some unzip_job] (Some NCBI_ncbi_delay_ready) None in
  let* reorg_job :=
    FunctionJob NCBI_clean [unzip_dir; dest_dir; tmp_dir]
                [Some rehydrate_job] None None in
  ret (all_jobs ++ [Some download_job; Some unzip_job;
                    Some rehydrate_job; Some reorg_job]).

Definition jobs_from_accessions (self : t) (accessions : list string)
    (dest_dir : string) : M World (list (option job_ref)) :=
  for_each (range_step (length accessions) 5)
           (batch_jobs self accessions dest_dir) [].

End Jobs.

(** *** Lines 49 to 53, statement by statement, for several threads

    Each thread is about to name one batch; the scheduler of the interpreter
    may switch thread between any two statements. *)

Inductive pc : Set := at_tmp_dir | at_job_name | at_increment | named.

Record thread : Set := mkThread {
  at_ : pc;
  tmp_dir_id : option nat;    (* the id read for the temporary directory *)
  job_name_id : option nat;   (* the id read for the job name *)
}.

Definition fresh_thread : thread :=
  {| at_ := at_tmp_dir; tmp_dir_id := None; job_name_id := None |}.

(** one statement of one thread on the shared counter *)
Definition step (counter : nat) (th : thread) : nat * thread :=
  match at_ th with
  | at_tmp_dir =>
      (counter, {| at_ := at_job_name; tmp_dir_id := Some counter;
                   job_name_id := job_name_id th |})
  | at_job_name =>
      (counter, {| at_ := at_increment; tmp_dir_id := tmp_dir_id th;
                   job_name_id := Some counter |})
  | at_increment =>
      (counter + 1, {| at_ := named; tmp_dir_id := tmp_dir_id th;
                       job_name_id := job_name_id th |})
  | named => (counter, th)
  end.

(** the threads take their steps in the order the schedule gives *)
Fixpoint run (schedule : list nat) (counter : nat) (ths : list thread)
  : nat * list thread :=
  match schedule with
  | [] => (counter, ths)
  | i :: schedule' =>
      match ths !! i with
      | Some th =>
          let '(counter', th') := step counter th in
          run schedule' counter' (<[i := th']> ths)
      | None => run schedule' counter ths
      end
  end.

End NCBI.

(** ** [seqdd/register/sources/sra.py] *)

Module SRA.

(** the dictionary [self.binaries], with its two keys *)
Record Binaries : Set := mkBinaries {
  prefetch : string;
  fasterq_dump : string;
}.

Record t : Type := mk {
  tmpdir : string;
  bindir : string;
  binaries : option Binaries;
  mutex : Lock.t;
  min_delay : float;
  last_sra_query : float;
}.

Definition set_mutex (l : Lock.t) (self : t) : t :=
  {| tmpdir := tmpdir self; bindir := bindir self; binaries := binaries self;
     mutex := l; min_delay := min_delay self;
     last_sra_query := last_sra_query self |}.
Definition set_last_sra_query (q : float) (self : t) : t :=
  {| tmpdir := tmpdir self; bindir := bindir self; binaries := binaries self;
     mutex := mutex self; min_delay := min_delay self; last_sra_query := q |}.

(** the fields [__init__] sets after the toolkit lookup *)
Definition init (tmpdir bindir : string) (binaries : option Binaries) : t :=
  {| tmpdir := tmpdir; bindir := bindir; binaries := binaries;
     mutex := false; min_delay := 0.5; last_sra_query := 0 |}.

Definition is_ready (self : t) : bool :=
  match binaries self with Some _ => true | None => false end.

Definition sra_delay_ready (self : t) (clock : Clock) : bool * t * Clock :=
  let '(locked, m) := Lock.acquire_nonblocking (mutex self) in
  let self := set_mutex m self in
  if locked then
    let '(now, clock) := time_time clock in
    let ready := float_gt (now - last_sra_query self) (min_delay self) in
    let '(self, clock) :=
      if ready then
        let '(now', clock) := time_time clock in
        (set_last_sra_query now' self, clock)
      else (self, clock) in
    let self := set_mutex (Lock.release (mutex self)) self in
    (ready, self, clock)
  else (false, self, clock).

(** [self.binaries[key]]: subscripting [None] raises *)
Definition binary (self : t) (key : Binaries -> string) : M World string :=
  match binaries self with
  | Some b => ret (key b)
  | None => raise TypeError
  end.

Definition jobs_from_SRR (self : t) (accession_dir job_name : string)
  : M World (list job_ref) :=
  let* fasterq := binary self fasterq_dump in
  let cmd := fasterq +:+ " --split-3 --skip-technical --outdir "
               +:+ accession_dir +:+ " " +:+ accession_dir in
  let* fasterqdump_job :=
    CmdLineJob cmd [] (Some SRA_sra_delay_ready)
               (Some (job_name +:+ "_fasterqdump")) in
  let cmd := "gzip " +:+ Py.path_join accession_dir "*.fastq" in
  let* compress_job :=
    CmdLineJob cmd [Some fasterqdump_job] None
               (Some (job_name +:+ "_compress")) in
  ret [fasterqdump_job; compress_job].

Definition jobs_from_SRXP (self : t) (acc_dir job_name : string)
  : M World (list job_ref) :=
  let* SRXP_subjob :=
    FunctionJob SRA_run_fasterqdump_from_SRXP [acc_dir] [] None
                (Some (job_name +:+ "_fasterqdump+gzip")) in
  ret [SRXP_subjob].

Section Jobs.

Variable resolve : string -> FS.loc.

(** lines 113 to 151: the jobs of one accession that is not yet downloaded *)
Definition accession_jobs (self : t) (datadir acc : string)
  : M World (list (option job_ref)) :=
  let job_name := "sra_" +:+ acc in
  let acc_dir := Py.path_join (tmpdir self) acc in
  let* present := path_exists resolve acc_dir in
  (if present then rmtree resolve acc_dir else ret tt) ;;
  makedirs resolve acc_dir false ;;
  let* (prefetch_job, fasterq_dump_jobs) :=
    (if Py.startswith acc "SRR" then
       let* prefetch_bin := binary self prefetch in
       let cmd := prefetch_bin +:+ " --max-size u --output-directory "
                    +:+ tmpdir self +:+ " " +:+ acc in
       let* prefetch_job :=
         CmdLineJob cmd [] (Some SRA_sra_delay_ready)
                    (Some (job_name +:+ "_prefetch")) in
       let* fasterq_dump_jobs := jobs_from_SRR self acc_dir job_name in
       ret (Some prefetch_job, fasterq_dump_jobs)
     else if Py.startswith acc "SRX" || Py.startswith acc "SRP" then
       let* prefetch_bin := binary self prefetch in
       let cmd := prefetch_bin +:+ " --max-size u --output-directory "
                    +:+ acc_dir +:+ " " +:+ acc in
       let* prefetch_job :=
         CmdLineJob cmd [] (Some SRA_sra_delay_ready)
                    (Some (job_name +:+ "_prefetch")) in
       let* fasterq_dump_jobs := jobs_from_SRXP self acc_dir job_name in
       ret (Some prefetch_job, fasterq_dump_jobs)
     else ret (None, [])) in
  for_each fasterq_dump_jobs
           (fun _ job => parents_append job prefetch_job) tt ;;
  let* clean_job :=
    FunctionJob SRA_move_and_clean [acc_dir; datadir]
                (Some <$> fasterq_dump_jobs) None
                (Some (job_name +:+ "_clean")) in
  ret ([prefetch_job] ++ (Some <$> fasterq_dump_jobs) ++ [Some clean_job]).

Definition jobs_from_accessions (self : t) (accessions : list string)
    (datadir : string) : M World (list (option job_ref)) :=
  for_each accessions
    (fun jobs acc =>
       let* downloaded := path_exists resolve (Py.path_join datadir acc) in
       if downloaded then
         logger_info (acc +:+ " already downloaded. Skipping...") ;;
         ret jobs
       else
         let* new := accession_jobs self datadir acc in
         ret (jobs ++ new))
    [].

End Jobs.

End SRA.

(** ** [seqdd/utils/download.py] *)

Module Download.

(** *** Python dictionaries: keys in insertion order *)

Definition dict (V : Type) : Type := list (string * V).

Fixpoint dict_get {V} (d : dict V) (k : string) : option V :=
  match d with
  | [] => None
  | (k', v) :: d' => if String.eqb k' k then Some v else dict_get d' k
  end.

(** [d[k] = v]: in place when [k] is a key already, at the end otherwise *)
Fixpoint dict_set {V} (d : dict V) (k : string) (v : V) : dict V :=
  match d with
  | [] => [(k, v)]
  | (k', v') :: d' =>
      if String.eqb k' k then (k', v) :: d' else (k', v') :: dict_set d' k v
  end.

Definition dict_keys {V} (d : dict V) : list string := d.*1.

(** [{k: v for k in keys}] *)
Definition dict_from_keys {V} (keys : list string) (v : V) : dict V :=
  foldl (fun d k => dict_set d k v) [] keys.

(** [d[k]] *)
Definition subscript {S V} (d : dict V) (k : string) : M S V :=
  match dict_get d k with
  | Some v => ret v
  | None => raise KeyError
  end.

(** [l[i]] *)
Definition item {S V} (l : list V) (i : nat) : M S V :=
  match l !! i with
  | Some v => ret v
  | None => raise IndexError
  end.

(** [while cond(): acc = body(acc)], cut short after [fuel] iterations *)
Fixpoint while {S B} (fuel : nat) (cond : B -> M S bool) (body : B -> M S B)
    (acc : B) : M S B :=
  let* go := cond acc in
  if go then
    match fuel with
    | O => fun s => Unfinished s
    | Datatypes.S fuel' => let* acc' := body acc in while fuel' cond body acc'
    end
  else ret acc.

(** *** The collaborators of [DownloadManager] *)

(** what [src_manager.get(source)] returns: an object with the two methods
    of a source class, such as [NCBI] and [SRA] *)
Record Manipulator : Type := mkManipulator {
  is_ready : M World bool;
  jobs_from_accessions : list string -> string -> M World (list (option job_ref));
}.

Definition NCBI_manipulator (resolve : string -> FS.loc) (self : NCBI.t)
  : Manipulator :=
  {| is_ready := ret (NCBI.is_ready self);
     jobs_from_accessions := NCBI.jobs_from_accessions resolve self |}.

Definition SRA_manipulator (resolve : string -> FS.loc) (self : SRA.t)
  : Manipulator :=
  {| is_ready := ret (SRA.is_ready self);
     jobs_from_accessions := SRA.jobs_from_accessions resolve self |}.

(** the [JobManager] built by [download_to]: the calls made on it so far, and
    what its [remaining_jobs()] will answer from now on *)
Record Engine : Type := mkEngine {
  calls : list Action;
  replies : nat -> nat;
}.

Definition call (a : Action) : M Engine unit :=
  fun e => Returned tt {| calls := calls e ++ [a]; replies := replies e |}.

Definition manager_remaining_jobs : M Engine nat :=
  fun e => let n := replies e 0 in
           Returned n {| calls := calls e ++ [remaining_jobs n];
                         replies := fun k => replies e (S k) |}.

Section DownloadManager.

Variable resolve : string -> FS.loc.

(** [self.register.acc_by_src] *)
Variable acc_by_src : dict (list string).

(** [self.src_manager.get] *)
Variable src_manager_get : string -> M World Manipulator.

(** lines 36 to 40 *)
Definition prepare_directories (datadir : string) (logdir : option string)
  : M World unit :=
  makedirs resolve datadir true ;;
  (match logdir with
   | Some l =>
       let* present := path_exists resolve l in
       if present then rmtree resolve l else ret tt
   | None => ret tt
   end) ;;
  match logdir with
  | Some l => makedirs resolve l false
  | None => raise TypeError
  end.

(** lines 42 to 55 *)
Definition create_jobs (datadir : string)
  : M World (dict (list (option job_ref))) :=
  let jobs := dict_from_keys (dict_keys acc_by_src) [] in
  for_each (dict_keys acc_by_src)
    (fun jobs source =>
       let* reg := subscript acc_by_src source in
       let* manipulator := src_manager_get source in
       if (0 <? length reg)%nat then
         let* ready := is_ready manipulator in
         if ready then
           let* js := jobs_from_accessions manipulator reg datadir in
           logger_info (Py.str_of_nat (length reg) +:+ " datasets from "
                          +:+ source +:+ " will be downloaded.") ;;
           ret (dict_set jobs source js)
         else
           logger_warning_file
             (source +:+ " datasets cannot be downloaded because the downloader is not ready. Skipping "
                +:+ Py.str_of_nat (length reg) +:+ " datasets.") ;;
           ret jobs
       else ret jobs)
    jobs.

(** lines 67 to 70: the body of the [for] loop over the sources *)
Definition submission_step (jobs : dict (list (option job_ref)))
    (st : dict nat * Z) (source : string) : M Engine (dict nat * Z) :=
  let '(idxs, total_jobs) := st in
  let* i := subscript idxs source in
  let* l := subscript jobs source in
  if (i <? length l)%nat then
    let* j := item l i in
    call (add_job j) ;;
    ret (dict_set idxs source (i + 1)%nat, (total_jobs - 1)%Z)
  else ret (idxs, total_jobs).

(** lines 66 to 70: the [for] loop over the sources *)
Definition submission_round (jobs : dict (list (option job_ref)))
    (st : dict nat * Z) : M Engine (dict nat * Z) :=
  for_each (dict_keys jobs) (submission_step jobs) st.

(** lines 63 to 70 *)
Definition submit_jobs (fuel : nat) (jobs : dict (list (option job_ref)))
  : M Engine (dict nat * Z) :=
  let idxs := dict_from_keys (dict_keys jobs) 0%nat in
  let* lens :=
    for_each (dict_keys jobs)
      (fun lens source =>
         let* l := subscript jobs source in
         ret (lens ++ [Z.of_nat (length l)]))
      [] in
  let total_jobs := foldr Z.add 0%Z lens in
  while fuel (fun st => ret (0 <? snd st)%Z) (submission_round jobs)
        (idxs, total_jobs).

(** lines 57 to 78 *)
Definition run_jobs (fuel : nat) (max_process : nat) (logdir : option string)
    (jobs : dict (list (option job_ref))) : M Engine unit :=
  call (JobManager_new max_process logdir) ;;
  call start ;;
  submit_jobs fuel jobs ;;
  while fuel
        (fun _ => let* n := manager_remaining_jobs in ret (0 <? n)%nat)
        (fun _ => call (sleep 1)) tt ;;
  call stop ;;
  call join.

(** the whole method; the second component is what was done with the
    [JobManager] *)
Definition download_to (fuel : nat) (answers : nat -> nat)
    (datadir : string) (logdir : option string) (max_process : nat)
    (w : World) : Result World unit * list Action :=
  match (prepare_directories datadir logdir ;; create_jobs datadir) w with
  | Returned jobs w' =>
      match run_jobs fuel max_process logdir jobs
                     {| calls := []; replies := answers |} with
      | Returned _ e => (Returned tt w', calls e)
      | Raised x e => (Raised x w', calls e)
      | Unfinished e => (Unfinished w', calls e)
      end
  | Raised x w' => (Raised x w', [])
  | Unfinished w' => (Unfinished w', [])
  end.

End DownloadManager.

(** *** [check_binary] *)

Section CheckBinary.

(** [subprocess.run(argv, ...)]: the return code of the process, or the
    exception raised when spawning it *)
Variable subprocess_run : list string -> Exn + Z.

Definition check_binary (path_to_bin : string) : Exn + bool :=
  let cmd := path_to_bin +:+ " --version" in
  match subprocess_run (Py.split " " cmd) with
  | inr returncode => inr (returncode =? 0)%Z
  | inl FileNotFoundError => inr false
  | inl e => inl e
  end.

End CheckBinary.

End Download.

(** * Properties *)

(** ** The rate-limit gates *)

Lemma ncbi_gate_acquired (self : NCBI.t) (clock : Clock) :
  NCBI.mutex self = false ->
  NCBI.ncbi_delay_ready self clock =
    if (1 <? clock 0%nat - NCBI.last_ncbi_query self)%float
    then (true, NCBI.set_last_ncbi_query (clock 1%nat) self,
          fun n => clock (S (S n)))
    else (false, self, fun n => clock (S n)).
Proof.
  destruct self as [td bd mtx b lq]; simpl. intros ->.
  unfold NCBI.ncbi_delay_ready, float_gt; simpl.
  by destruct (1 <? clock 0%nat - lq)%float.
Qed.

Lemma sra_gate_acquired (self : SRA.t) (clock : Clock) :
  SRA.mutex self = false ->
  SRA.sra_delay_ready self clock =
    if (SRA.min_delay self <? clock 0%nat - SRA.last_sra_query self)%float
    then (true, SRA.set_last_sra_query (clock 1%nat) self,
          fun n => clock (S (S n)))
    else (false, self, fun n => clock (S n)).
Proof.
  destruct self as [td bd bs mtx md lq]; simpl. intros ->.
  unfold SRA.sra_delay_ready, float_gt; simpl.
  by destruct (md <? clock 0%nat - lq)%float.
Qed.


Definition ncbi_example : NCBI.t :=
  {| NCBI.tmp_dir := "/tmp"; NCBI.bin_dir := "bin"; NCBI.mutex := false;
     NCBI.bin := Some "datasets"; NCBI.last_ncbi_query := 0 |}.

Definition sra_example : SRA.t :=
  SRA.init "/tmp" "bin"
    (Some {| SRA.prefetch := "prefetch"; SRA.fasterq_dump := "fasterq-dump" |}).

(** the clock whose first readings are those of [l] *)
Definition clock_of (l : list float) : Clock :=
  fun n => default 0%float (l !! n).

(** a clock that gives 5, 6, 7, 8 *)
Definition clock_example : Clock := clock_of [5; 6; 7; 8]%float.


(** The elapsed time is the rounded difference of two floats: with the stamp
    at 0.3, a reading of 1.3 (for SRA, 0.8) gives exactly the interval, not
    more, and the gate answers false. *)
#[warnings="-inexact-float"]
Example gate_elapsed_time_is_rounded :
  (1.3 - 0.3 =? 1)%float = true /\
  (NCBI.ncbi_delay_ready (NCBI.set_last_ncbi_query 0.3 ncbi_example)
     (clock_of [1.3; 1.3]%float)).1.1 = false /\
  (0.8 - 0.3 =? 0.5)%float = true /\
  (SRA.sra_delay_ready (SRA.set_last_sra_query 0.3 sra_example)
     (clock_of [0.8; 0.8]%float)).1.1 = false.
Proof. repeat split. Qed.

(** C2. When the try-lock is not acquired, a gate answers false at once: it
    reads no clock, waits for nothing, and leaves the object, its time stamp
    included, as it was. *)
Theorem gate_busy_returns_false
    (ncbi : NCBI.t) (sra : SRA.t) (clock : Clock) :
  NCBI.mutex ncbi = true ->
  SRA.mutex sra = true ->
  NCBI.ncbi_delay_ready ncbi clock = (false, ncbi, clock) /\
  SRA.sra_delay_ready sra clock = (false, sra, clock).
Proof.
  destruct ncbi as [td bd mtx b lq], sra as [td' bd' bs mtx' md lq']; simpl.
  by intros -> ->.
Qed.

Lemma gate_busy_returns_false_witness :
  NCBI.ncbi_delay_ready (NCBI.set_mutex true ncbi_example) clock_example
    = (false, NCBI.set_mutex true ncbi_example, clock_example) /\
  SRA.sra_delay_ready (SRA.set_mutex true sra_example) clock_example
    = (false, SRA.set_mutex true sra_example, clock_example).
Proof.
  apply (gate_busy_returns_false (NCBI.set_mutex true ncbi_example)
           (SRA.set_mutex true sra_example) clock_example); reflexivity.
Defined.

(** ** Reasoning in the monad *)

Section MonadFacts.
Context {S : Type}.

Lemma bind_Returned {A B} (m : M S A) (k : A -> M S B) s b s' :
  bind m k s = Returned b s' <->
  exists a s1, m s = Returned a s1 /\ k a s1 = Returned b s'.
Proof.
  unfold bind. split.
  - destruct (m s) as [a s1| |]; [eauto | done | done].
  - by intros (a & s1 & -> & ?).
Qed.

(** the invariant rule of the [for] loop, for the runs that return *)
Lemma for_each_Returned {A B} (P : list A -> B -> S -> Prop)
    (body : B -> A -> M S B) (l : list A) acc s r s' :
  for_each l body acc s = Returned r s' ->
  P [] acc s ->
  (forall seen x acc1 s1 acc2 s2,
      (exists rest, l = seen ++ x :: rest) ->
      P seen acc1 s1 -> body acc1 x s1 = Returned acc2 s2 ->
      P (seen ++ [x]) acc2 s2) ->
  P l r s'.
Proof.
  intros Hrun Hinit Hstep.
  assert (Hgen : forall todo seen acc1 s1,
             l = seen ++ todo -> P seen acc1 s1 ->
             for_each todo body acc1 s1 = Returned r s' -> P l r s').
  { induction todo as [|x todo IH]; intros seen acc1 s1 Hl HP Hr; simpl in Hr.
    - inversion Hr; subst. by rewrite app_nil_r.
    - apply bind_Returned in Hr as (acc2 & s2 & Hb & Hr).
      apply (IH (seen ++ [x]) acc2 s2); [by rewrite <- app_assoc | | done].
      eapply Hstep; eauto. }
  by apply (Hgen l [] acc s).
Qed.

End MonadFacts.

Lemma for_each_app {S A B} (l1 l2 : list A) (body : B -> A -> M S B) acc s :
  for_each (l1 ++ l2) body acc s
  = bind (for_each l1 body acc) (for_each l2 body) s.
Proof.
  revert acc s. induction l1 as [|x l1 IH]; intros acc s; [reflexivity|].
  cbn [app for_each]. unfold bind.
  destruct (body acc x s) as [acc' s'| |]; [|done|done].
  rewrite IH. reflexivity.
Qed.

(** a run that returns has returned on every prefix of the list *)
Lemma for_each_snoc_Returned {S A B} (l : list A) (x : A)
    (body : B -> A -> M S B) acc s acc1 s1 acc2 s2 :
  for_each l body acc s = Returned acc1 s1 ->
  body acc1 x s1 = Returned acc2 s2 ->
  for_each (l ++ [x]) body acc s = Returned acc2 s2.
Proof.
  intros Hl Hb. rewrite for_each_app. unfold bind at 1. rewrite Hl.
  simpl. unfold bind. by rewrite Hb.
Qed.

(** what holds between the store before and the store after, whatever the
    outcome *)
Section FinalStates.
Context {S : Type}.
Variable R : S -> S -> Prop.
Hypothesis R_refl : forall s, R s s.
Hypothesis R_trans : forall s1 s2 s3, R s1 s2 -> R s2 s3 -> R s1 s3.

Lemma bind_final {A B} (m : M S A) (k : A -> M S B) (s : S) :
  R s (final_state (m s)) ->
  (forall a s', R s' (final_state (k a s'))) ->
  R s (final_state (bind m k s)).
Proof.
  intros Hm Hk. unfold bind. destruct (m s) as [a s'|e s'|s']; simpl in *.
  - eapply R_trans; [exact Hm|apply Hk].
  - done.
  - done.
Qed.

Lemma for_each_final {A B} (l : list A) (body : B -> A -> M S B) :
  (forall acc x s, R s (final_state (body acc x s))) ->
  forall acc s, R s (final_state (for_each l body acc s)).
Proof.
  intros Hbody. induction l as [|x l IH]; intros acc s; simpl.
  - apply R_refl.
  - apply bind_final; [apply Hbody|]. intros; apply IH.
Qed.

Lemma while_final {B} (cond : B -> M S bool) (body : B -> M S B) :
  (forall acc s, R s (final_state (cond acc s))) ->
  (forall acc s, R s (final_state (body acc s))) ->
  forall fuel acc s, R s (final_state (Download.while fuel cond body acc s)).
Proof.
  intros Hcond Hbody. induction fuel as [|fuel IH]; intros acc s; simpl.
  - apply bind_final; [apply Hcond|]. intros [] s'; simpl; apply R_refl.
  - apply bind_final; [apply Hcond|]. intros [] s'; [|apply R_refl].
    apply bind_final; [apply Hbody|]. intros; apply IH.
Qed.

End FinalStates.

(** the names of the steps of a run that returned *)
Ltac run_steps H :=
  repeat match type of H with
         | bind _ _ _ = Returned _ _ =>
             let a := fresh "a" in
             let s := fresh "s" in
             let Hm := fresh "Hm" in
             apply bind_Returned in H as (a & s & Hm & H)
         end.

(** ** Lists cut in pieces of equal length *)

Lemma lookup_concat_pieces {A B} (c : nat) (f : nat -> A -> list B)
    (l : list A) (k i : nat) (x : A) :
  (forall k x, length (f k x) = c) ->
  l !! k = Some x -> (i < c)%nat ->
  concat (imap f l) !! (c * k + i)%nat = f k x !! i.
Proof.
  intros Hlen. revert f Hlen k.
  induction l as [|y l IH]; intros f Hlen k Hk Hi; [done|].
  rewrite imap_cons; simpl. destruct k as [|k]; simpl in Hk.
  - inversion Hk; subst. rewrite Nat.mul_0_r; simpl.
    apply lookup_app_l. by rewrite Hlen.
  - rewrite lookup_app_r by (rewrite Hlen; lia).
    rewrite Hlen.
    replace (c * S k + i - c)%nat with (c * k + i)%nat by lia.
    apply (IH (f ∘ S)); [intros; apply Hlen | done | done].
Qed.

Lemma length_concat_pieces {A B} (c : nat) (f : nat -> A -> list B)
    (l : list A) :
  (forall k x, length (f k x) = c) ->
  length (concat (imap f l)) = (c * length l)%nat.
Proof.
  intros Hlen. revert f Hlen.
  induction l as [|y l IH]; intros f Hlen; simpl; [lia|].
  rewrite length_app, Hlen, (IH (f ∘ S)) by (intros; apply Hlen). lia.
Qed.

Lemma concat_slices {A} (c n : nat) (l : list A) :
  (length l <= c * n)%nat ->
  concat ((fun k => take c (drop (k * c) l)) <$> seq 0 n) = l.
Proof.
  revert l. induction n as [|n IH]; intros l Hl.
  - simpl. destruct l; [done | simpl in Hl; lia].
  - simpl. rewrite <- fmap_S_seq, <- list_fmap_compose.
    transitivity (take c l ++ drop c l); [|apply take_drop]. f_equal.
    transitivity (concat ((fun k => take c (drop (k * c) (drop c l)))
                            <$> seq 0 n));
      [|apply IH; rewrite length_drop; lia].
    f_equal. apply list_fmap_ext. intros _ k _. simpl.
    by rewrite drop_drop.
Qed.

Lemma length_range_step (stop step : nat) :
  length (range_step stop step) = ((stop + step - 1) / step)%nat.
Proof. unfold range_step. by rewrite length_fmap, length_seq. Qed.

Lemma lookup_range_step (stop step k idx : nat) :
  range_step stop step !! k = Some idx -> idx = (k * step)%nat.
Proof.
  unfold range_step. rewrite list_lookup_fmap.
  destruct (seq 0 _ !! k) as [k'|] eqn:E; [|done].
  apply lookup_seq in E as [-> _]. simpl. congruence.
Qed.

(** ** The primitive steps *)

Lemma fs_update_Returned f w a w' :
  fs_update f w = Returned a w' ->
  exists m, f (fs w) = inr m /\ w' = set_fs m w.
Proof.
  unfold fs_update. destruct (f (fs w)) as [e|m]; [done|].
  intros H; inversion H; eauto.
Qed.

Lemma new_job_Returned j w a w' :
  new_job j w = Returned a w' ->
  a = length (heap w) /\ w' = set_heap (heap w ++ [j]) w.
Proof. unfold new_job. intros H; by inversion H. Qed.

Lemma ret_Returned {S A} (a b : A) (s s' : S) :
  ret a s = Returned b s' -> b = a /\ s' = s.
Proof. unfold ret. intros H; by inversion H. Qed.

(** ** [NCBI.jobs_from_accessions] *)

Section NCBIFacts.

Variable resolve : string -> FS.loc.
Variable self : NCBI.t.
Variable accessions : list string.
Variable dest_dir : string.

(** the four jobs of the batch that starts at [idx], named after [id] and
    stored from address [n] on *)
Definition ncbi_batch (idx id n : nat) : list Job :=
  let tmp_dir := NCBI.batch_tmp_dir self id in
  let job_name := NCBI.batch_job_name id in
  let download_file := Py.path_join tmp_dir (job_name +:+ ".zip") in
  let unzip_dir := Py.path_join tmp_dir job_name in
  [ {| kind := Command (NCBI.download_command self download_file
                          (take 5 (drop idx accessions)));
       parents := []; can_start := Some NCBI_ncbi_delay_ready; name := None |};
    {| kind := Command (NCBI.unzip_command download_file unzip_dir);
       parents := [Some n]; can_start := None; name := None |};
    {| kind := Command (NCBI.rehydrate_command self unzip_dir);
       parents := [Some (n + 1)%nat]; can_start := Some NCBI_ncbi_delay_ready;
       name := None |};
    {| kind := Callable NCBI_clean [unzip_dir; dest_dir; tmp_dir];
       parents := [Some (n + 2)%nat]; can_start := None; name := None |} ].

Lemma length_ncbi_batch idx id n : length (ncbi_batch idx id n) = 4%nat.
Proof. reflexivity. Qed.

Lemma batch_jobs_Returned all_jobs idx w r w' :
  NCBI.batch_jobs resolve self accessions dest_dir all_jobs idx w
    = Returned r w' ->
  let n := length (heap w) in
  r = all_jobs ++ (Some <$> seq n 4) /\
  heap w' = heap w ++ ncbi_batch idx (ncbi_joib_id w) n /\
  ncbi_joib_id w' = (ncbi_joib_id w + 1)%nat.
Proof.
  unfold NCBI.batch_jobs. intros H. run_steps H.
  unfold NCBI.get_joib_id in Hm. inversion Hm; subst; clear Hm.
  apply fs_update_Returned in Hm0 as (m & _ & ->).
  unfold NCBI.get_joib_id in Hm1. inversion Hm1; subst; clear Hm1.
  unfold NCBI.incr_joib_id in Hm2. inversion Hm2; subst; clear Hm2.
  apply new_job_Returned in Hm3 as [-> ->].
  apply new_job_Returned in Hm4 as [-> ->].
  apply new_job_Returned in Hm5 as [-> ->].
  apply new_job_Returned in Hm6 as [-> ->].
  apply ret_Returned in H as [-> ->]. simpl.
  rewrite !length_app. simpl. rewrite <- !app_assoc. simpl.
  repeat split.
  - do 2 f_equal. repeat (f_equal; try lia).
  - unfold ncbi_batch. repeat (f_equal; try lia).
Qed.

Lemma ncbi_loop_Returned idxs : forall all_jobs w r w',
  for_each idxs (NCBI.batch_jobs resolve self accessions dest_dir) all_jobs w
    = Returned r w' ->
  let n := length (heap w) in
  r = all_jobs ++ (Some <$> seq n (4 * length idxs)) /\
  heap w' = heap w ++
    concat (imap (fun k idx =>
                    ncbi_batch idx (ncbi_joib_id w + k) (n + 4 * k)) idxs) /\
  ncbi_joib_id w' = (ncbi_joib_id w + length idxs)%nat.
Proof.
  induction idxs as [|idx idxs IH]; intros all_jobs w r w' H; simpl in H.
  - apply ret_Returned in H as [-> ->]. simpl.
    by rewrite !app_nil_r, Nat.add_0_r.
  - apply bind_Returned in H as (r1 & w1 & Hb & H).
    apply batch_jobs_Returned in Hb as (-> & Hh1 & Hc1). cbv zeta in Hh1.
    apply IH in H as (-> & Hh & Hc). cbv zeta.
    rewrite Hh1, length_app, length_ncbi_batch in Hh.
    repeat split.
    + rewrite <- app_assoc. f_equal. rewrite <- fmap_app. f_equal.
      replace (4 * length (idx :: idxs))%nat
        with (4 + 4 * length idxs)%nat by (simpl; lia).
      by rewrite seq_app, Hh1, length_app, length_ncbi_batch.
    + rewrite Hh, imap_cons, <- app_assoc. cbn [concat].
      rewrite Nat.mul_0_r, !Nat.add_0_r. do 3 f_equal.
      apply imap_ext. intros k x _. unfold compose. rewrite Hc1.
      f_equal; lia.
    + rewrite Hc, Hc1. simpl. lia.
Qed.

End NCBIFacts.

(** ** Parent links *)

(** [p] is among the parents of the job at [j] *)
Definition parent_of (h : list Job) (j p : job_ref) : Prop :=
  exists J, h !! j = Some J /\ Some p ∈ parents J.

(** [a] is reached from [j] along one or more parent links *)
Definition ancestor (h : list Job) : job_ref -> job_ref -> Prop :=
  tc (parent_of h).

(** where every parent of a job stored from [lo] on is an older job stored
    from [lo] on, no such job is its own ancestor *)
Lemma ancestor_older (h : list Job) (lo : nat) :
  (forall j p, (lo <= j)%nat -> parent_of h j p -> (lo <= p < j)%nat) ->
  forall j a, ancestor h j a -> (lo <= j)%nat -> (lo <= a < j)%nat.
Proof.
  intros Hp j a Hanc. induction Hanc as [j a H | j p a H _ IH]; intros Hj.
  - by apply Hp.
  - destruct (Hp j p Hj H) as [Hlo Hlt].
    specialize (IH Hlo). lia.
Qed.

Lemma seq_pieces (n n0 : nat) :
  Some <$> seq n0 (4 * n) =
  concat ((fun k => [Some (n0 + 4 * k); Some (n0 + 4 * k + 1);
                     Some (n0 + 4 * k + 2); Some (n0 + 4 * k + 3)]%nat)
            <$> seq 0 n).
Proof.
  revert n0. induction n as [|n IH]; intros n0.
  - reflexivity.
  - replace (4 * S n)%nat with (4 + 4 * n)%nat by lia.
    rewrite seq_app, fmap_app. cbn [seq fmap list_fmap concat].
    rewrite <- fmap_S_seq, <- list_fmap_compose.
    replace (4 * 0)%nat with 0%nat by lia. rewrite !Nat.add_0_r.
    change (Some <$> [n0; S n0; S (S n0); S (S (S n0))])
      with [Some n0; Some (S n0); Some (S (S n0)); Some (S (S (S n0)))].
    cbn [app]. repeat (f_equal; try lia).
    rewrite IH. f_equal. apply list_fmap_ext. intros _ k _. simpl.
    repeat (f_equal; try lia).
Qed.

(** a linear chain of four jobs for one batch *)
Definition ncbi_chain (h : list Job) (self : NCBI.t) (dest_dir : string)
    (acc_slice : list string) (d u r g : job_ref) : Prop :=
  exists tmp_dir job_name : string,
    let download_file := Py.path_join tmp_dir (job_name +:+ ".zip") in
    let unzip_dir := Py.path_join tmp_dir job_name in
    h !! d = Some {| kind := Command (NCBI.download_command self download_file
                                        acc_slice);
                     parents := [];
                     can_start := Some NCBI_ncbi_delay_ready; name := None |} /\
    h !! u = Some {| kind := Command (NCBI.unzip_command download_file unzip_dir);
                     parents := [Some d];
                     can_start := None; name := None |} /\
    h !! r = Some {| kind := Command (NCBI.rehydrate_command self unzip_dir);
                     parents := [Some u];
                     can_start := Some NCBI_ncbi_delay_ready; name := None |} /\
    h !! g = Some {| kind := Callable NCBI_clean [unzip_dir; dest_dir; tmp_dir];
                     parents := [Some r];
                     can_start := None; name := None |}.

Section NCBIChains.

Variable resolve : string -> FS.loc.
Variable self : NCBI.t.
Variable accessions : list string.
Variable dest_dir : string.

(** what a returned call leaves: [n] batches, stored from [length (heap w)] *)
Lemma ncbi_jobs_Returned w jobs w' :
  NCBI.jobs_from_accessions resolve self accessions dest_dir w
    = Returned jobs w' ->
  let n := ((length accessions + 4) / 5)%nat in
  let n0 := length (heap w) in
  jobs = Some <$> seq n0 (4 * n) /\
  ncbi_joib_id w' = (ncbi_joib_id w + n)%nat /\
  length (heap w') = (n0 + 4 * n)%nat /\
  (forall j, (j < n0)%nat -> heap w' !! j = heap w !! j) /\
  forall k i, (k < n)%nat -> (i < 4)%nat ->
    heap w' !! (n0 + 4 * k + i)%nat =
    ncbi_batch self accessions dest_dir (k * 5) (ncbi_joib_id w + k)
               (n0 + 4 * k) !! i.
Proof.
  unfold NCBI.jobs_from_accessions. intros H.
  apply ncbi_loop_Returned in H as (-> & Hh & Hc). cbv zeta in *.
  assert (Hn : length (range_step (length accessions) 5)
               = ((length accessions + 4) / 5)%nat).
  { rewrite length_range_step. f_equal. lia. }
  rewrite Hn in *.
  set (n := ((length accessions + 4) / 5)%nat) in *.
  set (n0 := length (heap w)) in *.
  assert (Hlen : forall k x, length ((fun k idx =>
             ncbi_batch self accessions dest_dir idx (ncbi_joib_id w + k)
                        (n0 + 4 * k)) k x) = 4%nat) by done.
  split; [done|]. split; [done|]. split; [|split].
  - by rewrite Hh, length_app, (length_concat_pieces 4 _ _ Hlen), Hn.
  - intros j Hj. rewrite Hh. by apply lookup_app_l.
  - intros k i Hk Hi. rewrite Hh.
    rewrite lookup_app_r by (fold n0; lia).
    replace (n0 + 4 * k + i - length (heap w))%nat with (4 * k + i)%nat
      by (fold n0; lia).
    assert (Hidx : range_step (length accessions) 5 !! k = Some (k * 5)%nat).
    { unfold range_step. rewrite list_lookup_fmap, lookup_seq_lt; [done|].
      rewrite <- length_range_step, Hn. done. }
    by rewrite (lookup_concat_pieces 4 _ _ k i _ Hlen Hidx Hi).
Qed.

End NCBIChains.

#[local] Arguments Nat.mul : simpl never.

(** C4. The jobs [NCBI.jobs_from_accessions] returns are, batch of at most
    five accessions after batch, four jobs in a line: a download command with
    no parent, an unzip command whose only parent is the download, a
    rehydrate command whose only parent is the unzip, and the reorganizing
    callable whose only parent is the rehydrate; download and rehydrate carry
    the gate [ncbi_delay_ready], unzip and reorganize carry none; the batches
    cover the accessions in order, and no returned job is its own ancestor. *)
Theorem ncbi_jobs_form_linear_chains
    (resolve : string -> FS.loc) (self : NCBI.t) (accessions : list string)
    (dest_dir : string) (w : World) (jobs : list (option job_ref)) (w' : World) :
  NCBI.jobs_from_accessions resolve self accessions dest_dir w
    = Returned jobs w' ->
  let n := ((length accessions + 4) / 5)%nat in
  let acc_slice := fun k => take 5 (drop (k * 5) accessions) in
  exists chains : list (job_ref * job_ref * job_ref * job_ref),
    length chains = n /\
    concat (acc_slice <$> seq 0 n) = accessions /\
    jobs = concat ((fun '(d, u, r, g) => [Some d; Some u; Some r; Some g])
                     <$> chains) /\
    (forall k d u r g,
        chains !! k = Some (d, u, r, g) ->
        ncbi_chain (heap w') self dest_dir (acc_slice k) d u r g) /\
    (forall j, Some j ∈ jobs -> ~ ancestor (heap w') j j).
Proof.
  intros H. apply ncbi_jobs_Returned in H as (-> & _ & Hlen & _ & Hjobs).
  cbv zeta in *.
  set (n := ((length accessions + 4) / 5)%nat) in *.
  set (n0 := length (heap w)) in *.
  exists ((fun k => (n0 + 4 * k, n0 + 4 * k + 1, n0 + 4 * k + 2,
                     n0 + 4 * k + 3)%nat) <$> seq 0 n).
  split; [by rewrite length_fmap, length_seq|].
  split.
  { apply concat_slices. unfold n.
    pose proof (Nat.div_mod_eq (length accessions + 4) 5) as Hd.
    pose proof (Nat.mod_upper_bound (length accessions + 4) 5). lia. }
  split.
  { rewrite seq_pieces, <- list_fmap_compose. done. }
  split.
  - intros k d u r g Hk.
    rewrite list_lookup_fmap in Hk.
    destruct (seq 0 n !! k) as [k'|] eqn:E; [|done].
    apply lookup_seq in E as [-> Hlt]. simpl in Hk. inversion Hk; subst.
    exists (NCBI.batch_tmp_dir self (ncbi_joib_id w + k)),
           (NCBI.batch_job_name (ncbi_joib_id w + k)).
    cbv zeta.
    pose proof (Hjobs k 0%nat Hlt ltac:(lia)) as H0.
    pose proof (Hjobs k 1%nat Hlt ltac:(lia)) as H1.
    pose proof (Hjobs k 2%nat Hlt ltac:(lia)) as H2.
    pose proof (Hjobs k 3%nat Hlt ltac:(lia)) as H3.
    rewrite Nat.add_0_r in H0.
    by rewrite H0, H1, H2, H3.
  - intros j Hj Hanc.
    apply list_elem_of_fmap in Hj as (j' & [= <-] & Hj).
    apply elem_of_seq in Hj.
    assert (Hp : forall j p, (n0 <= j)%nat -> parent_of (heap w') j p ->
                             (n0 <= p < j)%nat).
    { clear j Hj Hanc. intros j p Hj (J & HJ & Hin).
      assert (Hjlt : (j < n0 + 4 * n)%nat).
      { rewrite <- Hlen. by eapply lookup_lt_Some. }
      pose proof (Nat.div_mod_eq (j - n0) 4) as Hd.
      pose proof (Nat.mod_upper_bound (j - n0) 4 ltac:(lia)) as Hm.
      set (k := ((j - n0) / 4)%nat) in *. set (i := ((j - n0) mod 4)%nat) in *.
      assert (Hk : (k < n)%nat) by lia.
      replace j with (n0 + 4 * k + i)%nat in HJ by lia.
      rewrite (Hjobs k i Hk Hm) in HJ.
      destruct i as [|[|[|[|i]]]]; simpl in HJ; inversion HJ; subst J;
        simpl in Hin; try lia.
      - by apply elem_of_nil in Hin.
      - apply list_elem_of_singleton in Hin. inversion Hin. lia.
      - apply list_elem_of_singleton in Hin. inversion Hin. lia.
      - apply list_elem_of_singleton in Hin. inversion Hin. lia. }
    pose proof (ancestor_older _ _ Hp j j Hanc). lia.
Qed.

(** a resolution of path strings: the names between the slashes *)
Definition resolve_example (p : string) : FS.loc :=
  filter (fun x => x ≠ "") (Py.split "/" p).

Definition world_example : World :=
  {| fs := ∅; heap := []; ncbi_joib_id := 0; logger_level := INFO;
     logged := [] |}.

Definition ncbi_run_example : Result World (list (option job_ref)) :=
  NCBI.jobs_from_accessions resolve_example ncbi_example
    ["GCA_1"; "GCA_2"; "GCA_3"; "GCA_4"; "GCA_5"; "GCA_6"] "data"
    world_example.

Lemma ncbi_jobs_form_linear_chains_witness :
  exists jobs w',
    ncbi_run_example = Returned jobs w' /\
    exists chains : list (job_ref * job_ref * job_ref * job_ref),
      length chains = 2%nat /\
      concat ((fun k => take 5 (drop (k * 5)
                 ["GCA_1"; "GCA_2"; "GCA_3"; "GCA_4"; "GCA_5"; "GCA_6"]))
                <$> seq 0 2)
        = ["GCA_1"; "GCA_2"; "GCA_3"; "GCA_4"; "GCA_5"; "GCA_6"] /\
      jobs = concat ((fun '(d, u, r, g) => [Some d; Some u; Some r; Some g])
                       <$> chains) /\
      (forall k d u r g,
          chains !! k = Some (d, u, r, g) ->
          ncbi_chain (heap w') ncbi_example "data"
            (take 5 (drop (k * 5)
               ["GCA_1"; "GCA_2"; "GCA_3"; "GCA_4"; "GCA_5"; "GCA_6"]))
            d u r g) /\
      (forall j, Some j ∈ jobs -> ~ ancestor (heap w') j j).
Proof.
  eexists _, _. split; [vm_compute; reflexivity|].
  apply (ncbi_jobs_form_linear_chains resolve_example ncbi_example
           ["GCA_1"; "GCA_2"; "GCA_3"; "GCA_4"; "GCA_5"; "GCA_6"] "data"
           world_example).
  vm_compute. reflexivity.
Defined.

(** ** The batch counter *)





(** a thread left alone reads the counter twice and adds one to it, as
    [NCBI.batch_jobs] does *)
Lemma thread_alone (c : nat) :
  NCBI.run [0; 0; 0]%nat c [NCBI.fresh_thread]
  = ((c + 1)%nat,
     [{| NCBI.at_ := NCBI.named; NCBI.tmp_dir_id := Some c;
         NCBI.job_name_id := Some c |}]).
Proof. reflexivity. Qed.


Definition ncbi_second_run_example (w1 : World)
  : Result World (list (option job_ref)) :=
  NCBI.jobs_from_accessions resolve_example ncbi_example
    ["GCF_7"] "data" w1.




(** ** [check_binary] *)

Lemma split_field (sep : ascii) (s rest : string) :
  Py.contains_char sep s = false ->
  Py.split sep (s +:+ String sep rest) = s :: Py.split sep rest.
Proof.
  induction s as [|c s IH]; simpl; intros H.
  - by rewrite Ascii.eqb_refl.
  - apply orb_false_iff in H as [Hc Hs].
    rewrite Hc. by rewrite (IH Hs).
Qed.

(** On any path, [check_binary] runs the words of [path_to_bin --version],
    cut at every space: when spawning them raises [FileNotFoundError] it
    returns [False] and does not raise, and it returns [True] exactly when
    they run to the return code 0; these words are the path and [--version]
    when the path has no space in it. *)
Lemma check_binary_true_iff_words_exit_zero
    (subprocess_run : list string -> Exn + Z) (path_to_bin : string) :
  let argv := Py.split " " (path_to_bin +:+ " --version") in
  (subprocess_run argv = inl FileNotFoundError ->
   Download.check_binary subprocess_run path_to_bin = inr false) /\
  (Download.check_binary subprocess_run path_to_bin = inr true <->
   subprocess_run argv = inr 0%Z) /\
  (Py.contains_char " " path_to_bin = false ->
   argv = [path_to_bin; "--version"]).
Proof.
  cbv zeta. unfold Download.check_binary. split; [|split].
  - by intros ->.
  - destruct (subprocess_run _) as [e|rc].
    + split; [by destruct e | done].
    + split.
      * intros [= H%Z.eqb_eq]. by subst.
      * by intros [= ->].
  - intros H. by rewrite (split_field " " path_to_bin "--version" H).
Qed.

(** one program installed, in a directory with a space in its name *)
Definition run_one_installed (argv : list string) : Exn + Z :=
  if bool_decide (argv = ["/opt/my tools/datasets"; "--version"])
  then inr 0%Z else inl FileNotFoundError.

(** C10, at a path with a space in it. The binary [/opt/my tools/datasets]
    is present and runs with [--version] to the return code 0; [check_binary]
    cuts [/opt/my tools/datasets --version] at its spaces, spawns [/opt/my],
    which is no program, and returns [False]. *)
Theorem check_binary_path_with_space :
  run_one_installed ["/opt/my tools/datasets"; "--version"] = inr 0%Z /\
  Py.split " " ("/opt/my tools/datasets" +:+ " --version")
    = ["/opt/my"; "tools/datasets"; "--version"] /\
  run_one_installed ["/opt/my"; "tools/datasets"; "--version"]
    = inl FileNotFoundError /\
  Download.check_binary run_one_installed "/opt/my tools/datasets"
    = inr false.
Proof. repeat split. Qed.

(** ** The file system *)

Lemma elem_of_inits (q p : FS.loc) : q ∈ FS.inits p <-> q `prefix_of` p.
Proof.
  revert q. induction p as [|x p IH]; intros q; simpl.
  - rewrite list_elem_of_singleton. split; [by intros ->|].
    by intros ->%prefix_nil_inv.
  - rewrite elem_of_cons, list_elem_of_fmap. split.
    + intros [->|(q' & -> & Hq')]; [apply prefix_nil|].
      apply prefix_cons, IH, Hq'.
    + intros Hq. destruct q as [|y q]; [by left|right].
      pose proof (prefix_cons_inv_1 _ _ _ _ Hq) as ->.
      apply prefix_cons_inv_2 in Hq. exists q. split; [done|]. by apply IH.
Qed.

Lemma lookup_foldr_mkdir (l : list FS.loc) (m : FS.t) (q : FS.loc) :
  foldr (fun q acc => <[q := FS.Dir]> acc) m l !! q =
  if bool_decide (q ∈ l) then Some FS.Dir else m !! q.
Proof.
  induction l as [|x l IH]; simpl.
  - done.
  - destruct (decide (x = q)) as [->|Hne].
    + rewrite lookup_insert_eq, bool_decide_true; [done|]. by left.
    + rewrite lookup_insert_ne, IH by done.
      destruct (bool_decide (q ∈ l)) eqn:E.
      * apply bool_decide_eq_true in E.
        rewrite bool_decide_true; [done|]. by right.
      * apply bool_decide_eq_false in E.
        rewrite bool_decide_false; [done|].
        intros [->|?]%elem_of_cons; done.
Qed.

Lemma blocked_false (p : FS.loc) (m : FS.t) :
  FS.blocked p m = false ->
  forall q, q `prefix_of` p -> q ≠ p -> m !! q ≠ Some FS.File.
Proof.
  unfold FS.blocked. intros H q Hq Hne Hf.
  assert (existsb (fun q => bool_decide (q ≠ p) &&
            match m !! q with Some FS.File => true | _ => false end)
            (FS.inits p) = true); [|congruence].
  apply existsb_exists. exists q. split.
  - apply list_elem_of_In, elem_of_inits, Hq.
  - cbv beta. rewrite Hf, bool_decide_true; done.
Qed.

(** [makedirs] that succeeds: the directory is there, what existed is kept,
    and what is new is a directory on the way to it *)
Lemma makedirs_inr (exist_ok : bool) (p : FS.loc) (m m' : FS.t) :
  FS.makedirs exist_ok p m = inr m' ->
  m' !! p = Some FS.Dir /\
  (forall q n, m !! q = Some n -> m' !! q = Some n) /\
  (forall q n, m' !! q = Some n ->
               m !! q = Some n \/ (m !! q = None /\ q `prefix_of` p)).
Proof.
  unfold FS.makedirs. destruct (FS.blocked p m) eqn:Hb; [done|].
  destruct (m !! p) as [[|]|] eqn:Hp.
  - destruct exist_ok; [|done]. intros [= <-]. by eauto.
  - done.
  - intros [= <-]. split; [|split].
    + rewrite lookup_foldr_mkdir, bool_decide_true; [done|].
      by apply elem_of_inits.
    + intros q n Hq. rewrite lookup_foldr_mkdir.
      destruct (bool_decide (q ∈ FS.inits p)) eqn:E; [|done].
      apply bool_decide_eq_true, elem_of_inits in E.
      destruct (decide (q = p)) as [->|Hne]; [congruence|].
      pose proof (blocked_false _ _ Hb q E Hne). destruct n; done.
    + intros q n. rewrite lookup_foldr_mkdir.
      destruct (bool_decide (q ∈ FS.inits p)) eqn:E; [|by left].
      apply bool_decide_eq_true, elem_of_inits in E. intros [= <-].
      destruct (m !! q) as [[|]|] eqn:Hq; [by left | | by right].
      destruct (decide (q = p)) as [->|Hne]; [congruence|].
      by pose proof (blocked_false _ _ Hb q E Hne).
Qed.

(** [rmtree] that succeeds: it was a directory, and it is gone with all
    that was below it, and nothing else *)
Lemma rmtree_inr (p : FS.loc) (m m' : FS.t) :
  FS.rmtree p m = inr m' ->
  m !! p = Some FS.Dir /\
  (forall q, p `prefix_of` q -> m' !! q = None) /\
  (forall q, ~ p `prefix_of` q -> m' !! q = m !! q).
Proof.
  unfold FS.rmtree. destruct (m !! p) as [[|]|] eqn:Hp; try done.
  intros [= <-]. split; [done|]. split.
  - intros q Hq. apply map_lookup_filter_None. right.
    intros n _ Hn. by apply Hn.
  - intros q Hq. destruct (m !! q) as [n|] eqn:E.
    + by apply map_lookup_filter_Some.
    + apply map_lookup_filter_None. by left.
Qed.

(** ** [SRA.jobs_from_accessions] *)

Lemma parents_append_Returned job p w a w' :
  parents_append job p w = Returned a w' ->
  exists J, heap w !! job = Some J /\
            heap w' = <[job := with_parents (parents J ++ [p]) J]> (heap w).
Proof.
  unfold parents_append. destruct (heap w !! job) as [J|]; [|done].
  intros H; inversion H; subst. by exists J.
Qed.

Lemma parents_append_at h new i J p w :
  heap w = h ++ new -> new !! i = Some J ->
  parents_append (length h + i) p w
  = Returned tt (set_heap (h ++ <[i := with_parents (parents J ++ [p]) J]> new) w).
Proof.
  intros Hh Hi. unfold parents_append.
  rewrite Hh, lookup_app_r by lia.
  replace (length h + i - length h)%nat with i by lia. rewrite Hi.
  by rewrite insert_app_r.
Qed.

Lemma set_heap_set_heap h h' w : set_heap h (set_heap h' w) = set_heap h w.
Proof. reflexivity. Qed.

Lemma path_exists_Returned resolve p w a w' :
  path_exists resolve p w = Returned a w' -> w' = w.
Proof. unfold path_exists. intros H; by inversion H. Qed.

Lemma logger_info_Returned msg w a w' :
  logger_info msg w = Returned a w' -> heap w' = heap w.
Proof.
  unfold logger_info. destruct (_ <=? _)%nat; intros H; by inversion H.
Qed.

Section SRAFacts.

Variable resolve : string -> FS.loc.
Variable self : SRA.t.
Variable datadir : string.

Definition sra_prefetch_job (cmd acc : string) : Job :=
  {| kind := Command cmd; parents := [];
     can_start := Some SRA_sra_delay_ready;
     name := Some ("sra_" +:+ acc +:+ "_prefetch") |}.

Definition sra_clean_job (acc : string) (ps : list (option job_ref)) : Job :=
  {| kind := Callable SRA_move_and_clean
               [Py.path_join (SRA.tmpdir self) acc; datadir];
     parents := ps; can_start := None;
     name := Some ("sra_" +:+ acc +:+ "_clean") |}.

(** the jobs of one accession, stored from address [n] on, as they are when
    [accession_jobs] returns *)
Definition sra_accession_heap (b : option SRA.Binaries) (acc : string)
    (n : nat) : list Job :=
  let acc_dir := Py.path_join (SRA.tmpdir self) acc in
  match b with
  | Some b =>
      if Py.startswith acc "SRR" then
        [ sra_prefetch_job (SRA.prefetch b +:+ " --max-size u --output-directory "
                              +:+ SRA.tmpdir self +:+ " " +:+ acc) acc;
          {| kind := Command (SRA.fasterq_dump b
                                +:+ " --split-3 --skip-technical --outdir "
                                +:+ acc_dir +:+ " " +:+ acc_dir);
             parents := [Some n]; can_start := Some SRA_sra_delay_ready;
             name := Some ("sra_" +:+ acc +:+ "_fasterqdump") |};
          {| kind := Command ("gzip " +:+ Py.path_join acc_dir "*.fastq");
             parents := [Some (n + 1)%nat; Some n]; can_start := None;
             name := Some ("sra_" +:+ acc +:+ "_compress") |};
          sra_clean_job acc [Some (n + 1)%nat; Some (n + 2)%nat] ]
      else if Py.startswith acc "SRX" || Py.startswith acc "SRP" then
        [ sra_prefetch_job (SRA.prefetch b +:+ " --max-size u --output-directory "
                              +:+ acc_dir +:+ " " +:+ acc) acc;
          {| kind := Callable SRA_run_fasterqdump_from_SRXP [acc_dir];
             parents := [Some n]; can_start := None;
             name := Some ("sra_" +:+ acc +:+ "_fasterqdump+gzip") |};
          sra_clean_job acc [Some (n + 1)%nat] ]
      else [ sra_clean_job acc [] ]
  | None => [ sra_clean_job acc [] ]
  end.

(** the list [accession_jobs] returns for them *)
Definition sra_accession_refs (acc : string) (n : nat)
  : list (option job_ref) :=
  if Py.startswith acc "SRR" then
    [Some n; Some (n + 1)%nat; Some (n + 2)%nat; Some (n + 3)%nat]
  else if Py.startswith acc "SRX" || Py.startswith acc "SRP" then
    [Some n; Some (n + 1)%nat; Some (n + 2)%nat]
  else [None; Some n].

Lemma accession_jobs_Returned acc w r w' :
  SRA.accession_jobs resolve self datadir acc w = Returned r w' ->
  let n := length (heap w) in
  r = sra_accession_refs acc n /\
  heap w' = heap w ++ sra_accession_heap (SRA.binaries self) acc n /\
  (SRA.binaries self = None ->
   Py.startswith acc "SRR" = false /\
   Py.startswith acc "SRX" || Py.startswith acc "SRP" = false).
Proof.
  unfold SRA.accession_jobs. intros H.
  apply bind_Returned in H as (present & w0 & Hm & H).
  apply path_exists_Returned in Hm as ->.
  apply bind_Returned in H as (? & w1 & Hm & H).
  assert (Hw1 : heap w1 = heap w).
  { destruct present.
    - by apply fs_update_Returned in Hm as (m & _ & ->).
    - by apply ret_Returned in Hm as [_ ->]. }
  clear Hm.
  apply bind_Returned in H as (? & w2 & Hm & H).
  apply fs_update_Returned in Hm as (m & _ & ->).
  assert (Hw2 : heap (set_fs m w1) = heap w) by done.
  revert H Hw2. generalize (set_fs m w1). clear w1 Hw1. intros w2 H Hw2.
  unfold sra_accession_refs, sra_accession_heap.
  unfold SRA.jobs_from_SRR, SRA.jobs_from_SRXP, SRA.binary in H.
  destruct (Py.startswith acc "SRR");
    [|destruct (Py.startswith acc "SRX" || Py.startswith acc "SRP")];
    destruct (SRA.binaries self) as [b|] eqn:Hb; try done.
  - (* SRR: a prefetch job, fasterq-dump and its compression *)
    unfold bind, ret, CmdLineJob, FunctionJob, new_job in H. simpl in H.
    rewrite !length_app in H. simpl in H. rewrite <- !app_assoc in H.
    simpl in H. rewrite !set_heap_set_heap in H. unfold bind in H.
    erewrite (parents_append_at (heap w2) _ 1) in H; [|reflexivity..].
    rewrite set_heap_set_heap in H.
    rewrite <- Nat.add_assoc in H. simpl in H.
    erewrite (parents_append_at (heap w2) _ 2) in H; [|reflexivity..].
    simpl in H. inversion H; subst; clear H. simpl.
    rewrite Hw2, length_app. simpl.
    split; [repeat (f_equal; try lia)|]. split; [|done].
    by rewrite <- app_assoc.
  - (* SRX, SRP: a prefetch job and one callable *)
    unfold bind, ret, CmdLineJob, FunctionJob, new_job in H. simpl in H.
    rewrite !length_app in H. simpl in H. rewrite <- !app_assoc in H.
    simpl in H. rewrite !set_heap_set_heap in H. unfold bind in H.
    erewrite (parents_append_at (heap w2) _ 1) in H; [|reflexivity..].
    simpl in H. inversion H; subst; clear H. simpl.
    rewrite Hw2, length_app. simpl.
    split; [repeat (f_equal; try lia)|]. split; [|done].
    by rewrite <- app_assoc.
  - (* any other prefix: no prefetch job, no fasterq-dump job *)
    unfold bind, ret, CmdLineJob, FunctionJob, new_job in H. simpl in H.
    inversion H; subst; clear H. simpl. by rewrite Hw2.
  - unfold bind, ret, CmdLineJob, FunctionJob, new_job in H. simpl in H.
    inversion H; subst; clear H. simpl. by rewrite Hw2.
Qed.

(** the store holds, from address [n] on, the jobs of accession [acc] *)
Definition sra_stored (h : list Job) (seg : string * nat) : Prop :=
  forall i J,
    sra_accession_heap (SRA.binaries self) seg.1 seg.2 !! i = Some J ->
    h !! (seg.2 + i)%nat = Some J.

(** an accession can only be processed without the toolkit when it needs
    none of its programs *)
Definition sra_toolkit_needed (seg : string * nat) : Prop :=
  SRA.binaries self = None ->
  Py.startswith seg.1 "SRR" = false /\
  Py.startswith seg.1 "SRX" || Py.startswith seg.1 "SRP" = false.

Lemma sra_stored_app h new seg : sra_stored h seg -> sra_stored (h ++ new) seg.
Proof.
  intros Hs i J Hi. apply lookup_app_l_Some. by apply Hs.
Qed.

(** what a returned call leaves: the processed accessions, in order, each
    with the address of its first job *)
Lemma sra_jobs_Returned accessions w jobs w' :
  SRA.jobs_from_accessions resolve self accessions datadir w
    = Returned jobs w' ->
  exists segs : list (string * nat),
    segs.*1 `sublist_of` accessions /\
    jobs = concat ((fun seg => sra_accession_refs seg.1 seg.2) <$> segs) /\
    Forall (sra_stored (heap w')) segs /\
    Forall sra_toolkit_needed segs.
Proof.
  unfold SRA.jobs_from_accessions. intros H.
  apply (for_each_Returned
           (fun seen jobs s =>
              exists segs : list (string * nat),
                segs.*1 `sublist_of` seen /\
                jobs = concat ((fun seg => sra_accession_refs seg.1 seg.2)
                                 <$> segs) /\
                Forall (sra_stored (heap s)) segs /\
                Forall sra_toolkit_needed segs)) in H; [done | |].
  - exists []. by repeat split.
  - clear. intros seen acc jobs1 s1 jobs2 s2 _ (segs & Hsub & -> & Hst & Htk) Hb.
    apply bind_Returned in Hb as (downloaded & s & Hm & Hb).
    apply path_exists_Returned in Hm as ->.
    destruct downloaded.
    + apply bind_Returned in Hb as (? & s & Hm & Hb).
      apply logger_info_Returned in Hm.
      apply ret_Returned in Hb as [-> ->].
      exists segs. rewrite Hm. split; [by apply sublist_inserts_r|done].
    + apply bind_Returned in Hb as (new & s & Hm & Hb).
      apply ret_Returned in Hb as [-> ->].
      apply accession_jobs_Returned in Hm as (-> & Hh & Hn).
      exists (segs ++ [(acc, length (heap s1))]).
      rewrite !fmap_app, concat_app, Hh. simpl. rewrite app_nil_r.
      split; [by apply sublist_app|]. split; [done|].
      split; apply Forall_app; split; try done.
      * eapply Forall_impl; [exact Hst|]. intros seg. apply sra_stored_app.
      * apply Forall_singleton. intros i J Hi. simpl in *.
        by rewrite lookup_app_r, Nat.add_comm, Nat.add_sub by lia.
      * by apply Forall_singleton.
Qed.

End SRAFacts.

(** the accession starts with one of the three prefixes the method knows *)
Definition sra_known_prefix (acc : string) : bool :=
  Py.startswith acc "SRR" || Py.startswith acc "SRX" || Py.startswith acc "SRP".

Section SRATurns.

Variable resolve : string -> FS.loc.
Variable self : SRA.t.
Variable datadir : string.

(** the store when the loop of [jobs_from_accessions] comes to the accession
    of rank [k]: the one the call leaves on the [k] accessions before it *)
Definition sra_store_at (accessions : list string) (w : World) (k : nat)
  : World :=
  final_state
    (SRA.jobs_from_accessions resolve self (take k accessions) datadir w).

(** line 109 for the accession [acc] of rank [k]: it is in the data
    directory already *)
Definition sra_downloaded (accessions : list string) (w : World) (k : nat)
    (acc : string) : bool :=
  FS.exists_ (resolve (Py.path_join datadir acc))
             (fs (sra_store_at accessions w k)).

(** what an accession adds to the list: nothing when it is passed over, the
    references to its jobs otherwise *)
Definition sra_turn_refs (o : option (string * nat)) : list (option job_ref) :=
  match o with
  | Some seg => sra_accession_refs seg.1 seg.2
  | None => []
  end.

(** what a returned call leaves, accession by accession: an accession found
    in the data directory when its turn comes adds nothing, and every other
    one has its jobs stored, the first of them at the address given *)
Lemma sra_jobs_turns accessions w jobs w' :
  SRA.jobs_from_accessions resolve self accessions datadir w
    = Returned jobs w' ->
  exists turns : list (option (string * nat)),
    length turns = length accessions /\
    jobs = concat (sra_turn_refs <$> turns) /\
    forall k acc, accessions !! k = Some acc ->
      if sra_downloaded accessions w k acc then turns !! k = Some None
      else exists n, turns !! k = Some (Some (acc, n)) /\
                     sra_stored self datadir (heap w') (acc, n) /\
                     sra_toolkit_needed self (acc, n).
Proof.
  intros H. pose proof H as H0. unfold SRA.jobs_from_accessions in H.
  apply (for_each_Returned
           (fun seen jobs s =>
              SRA.jobs_from_accessions resolve self seen datadir w
                = Returned jobs s /\
              exists turns : list (option (string * nat)),
                length turns = length seen /\
                jobs = concat (sra_turn_refs <$> turns) /\
                forall k acc, seen !! k = Some acc ->
                  if sra_downloaded seen w k acc then turns !! k = Some None
                  else exists n, turns !! k = Some (Some (acc, n)) /\
                                 sra_stored self datadir (heap s) (acc, n) /\
                                 sra_toolkit_needed self (acc, n))) in H.
  - by destruct H as [_ H].
  - split; [done|]. exists []. by repeat split.
  - clear H H0 jobs w'.
    intros seen acc jobs1 s1 jobs2 s2 _ (Hrun & turns & Hlen & -> & Hturns) Hb.
    split; [by apply (for_each_snoc_Returned _ _ _ _ _ _ _ _ _ Hrun)|].
    assert (Hat : sra_downloaded (seen ++ [acc]) w (length seen) acc
                  = FS.exists_ (resolve (Py.path_join datadir acc)) (fs s1)).
    { unfold sra_downloaded, sra_store_at.
      by rewrite take_app_length, Hrun. }
    assert (Hold : forall k a, seen !! k = Some a ->
              sra_downloaded (seen ++ [acc]) w k a = sra_downloaded seen w k a).
    { intros k a Hk. unfold sra_downloaded, sra_store_at.
      apply lookup_lt_Some in Hk. by rewrite take_app_le by lia. }
    apply bind_Returned in Hb as (downloaded & s & Hm & Hb).
    pose proof Hm as Hd. unfold path_exists in Hd. inversion Hd; subst; clear Hd.
    clear Hm. rewrite <- Hat in Hb.
    destruct (sra_downloaded (seen ++ [acc]) w (length seen) acc) eqn:E.
    + apply bind_Returned in Hb as (? & s' & Hm & Hb).
      apply logger_info_Returned in Hm.
      apply ret_Returned in Hb as [-> ->].
      exists (turns ++ [None]). rewrite length_app, Hlen, length_app.
      split; [done|]. split.
      { rewrite fmap_app, concat_app. simpl. by rewrite app_nil_r. }
      intros k a Hk. apply lookup_app_Some in Hk as [Hk|[Hge Hk]].
      * rewrite (Hold _ _ Hk). specialize (Hturns _ _ Hk).
        pose proof (lookup_lt_Some _ _ _ Hk) as Hlt.
        rewrite lookup_app_l by lia. rewrite Hm.
        destruct (sra_downloaded seen w k a); done.
      * apply list_lookup_singleton_Some in Hk as [Hk <-].
        replace k with (length seen) by lia. rewrite E.
        rewrite lookup_app_r by lia. by rewrite Hlen, Nat.sub_diag.
    + apply bind_Returned in Hb as (new & s' & Hm & Hb).
      apply ret_Returned in Hb as [-> ->].
      apply accession_jobs_Returned in Hm as (-> & Hh & Hn).
      exists (turns ++ [Some (acc, length (heap s))]).
      rewrite length_app, Hlen, length_app.
      split; [done|]. split.
      { rewrite fmap_app, concat_app. simpl. by rewrite app_nil_r. }
      intros k a Hk. apply lookup_app_Some in Hk as [Hk|[Hge Hk]].
      * rewrite (Hold _ _ Hk). specialize (Hturns _ _ Hk).
        pose proof (lookup_lt_Some _ _ _ Hk) as Hlt.
        rewrite lookup_app_l by lia.
        destruct (sra_downloaded seen w k a); [done|].
        destruct Hturns as (n & Hn1 & Hn2 & Hn3). exists n.
        split; [done|]. split; [|done]. rewrite Hh. by apply sra_stored_app.
      * apply list_lookup_singleton_Some in Hk as [Hk <-].
        replace k with (length seen) by lia. rewrite E.
        rewrite lookup_app_r by lia. rewrite Hlen, Nat.sub_diag.
        eexists. split; [done|]. split; [|done].
        intros i J Hi. rewrite Hh. simpl in *.
        by rewrite lookup_app_r, Nat.add_comm, Nat.add_sub by lia.
Qed.

End SRATurns.

(** ** [SRA.jobs_from_accessions]: what it changes in the file system *)

(** the locations of [P] are left as they were *)
Definition fs_kept (P : FS.loc -> Prop) (w w' : World) : Prop :=
  forall q, P q -> fs w' !! q = fs w !! q.

Lemma fs_kept_refl P w : fs_kept P w w.
Proof. by intros q _. Qed.

Lemma fs_kept_trans P w1 w2 w3 :
  fs_kept P w1 w2 -> fs_kept P w2 w3 -> fs_kept P w1 w3.
Proof. intros H1 H2 q Hq. by rewrite (H2 q Hq), (H1 q Hq). Qed.

Lemma fs_kept_same P w w' : fs w' = fs w -> fs_kept P w w'.
Proof. intros H q _. by rewrite H. Qed.

(** neither location lies in the other *)
Definition apart (p q : FS.loc) : Prop :=
  ~ p `prefix_of` q /\ ~ q `prefix_of` p.

Section SRAFiles.

Variable resolve : string -> FS.loc.
Variable self : SRA.t.
Variable datadir : string.

Lemma new_job_keeps_fs P j w : fs_kept P w (final_state (new_job j w)).
Proof. by apply fs_kept_same. Qed.

Lemma makedirs_keeps_fs p exist_ok w :
  fs_kept (apart (resolve p)) w (final_state (makedirs resolve p exist_ok w)).
Proof.
  unfold makedirs, fs_update.
  destruct (FS.makedirs exist_ok (resolve p) (fs w)) as [e|m] eqn:E;
    [apply fs_kept_refl|].
  apply makedirs_inr in E as (_ & Hkeep & Hnew).
  intros q [_ Hq]. simpl.
  destruct (fs w !! q) as [n|] eqn:Hn; [by apply Hkeep|].
  destruct (m !! q) as [n|] eqn:Hm; [|done].
  apply Hnew in Hm as [Hm|[_ Hpre]]; [congruence|done].
Qed.

Lemma rmtree_keeps_fs p w :
  fs_kept (apart (resolve p)) w (final_state (rmtree resolve p w)).
Proof.
  unfold rmtree, fs_update.
  destruct (FS.rmtree (resolve p) (fs w)) as [e|m] eqn:E;
    [apply fs_kept_refl|].
  apply rmtree_inr in E as (_ & _ & Hrest).
  intros q [Hq _]. simpl. by apply Hrest.
Qed.

Lemma accession_jobs_keeps_fs acc w :
  fs_kept (apart (resolve (Py.path_join (SRA.tmpdir self) acc))) w
          (final_state (SRA.accession_jobs resolve self datadir acc w)).
Proof.
  set (P := apart (resolve (Py.path_join (SRA.tmpdir self) acc))).
  assert (Hjob : forall j s, fs_kept P s (final_state (new_job j s)))
    by (intros; apply new_job_keeps_fs).
  assert (Hbin : forall key s,
            fs_kept P s (final_state (SRA.binary self key s))).
  { intros key s. unfold SRA.binary.
    destruct (SRA.binaries self); apply fs_kept_refl. }
  unfold SRA.accession_jobs.
  apply (bind_final (fs_kept P) (fs_kept_trans P)); [apply fs_kept_refl|].
  intros present s1.
  apply (bind_final (fs_kept P) (fs_kept_trans P)).
  { destruct present; [apply rmtree_keeps_fs|apply fs_kept_refl]. }
  intros _ s2.
  apply (bind_final (fs_kept P) (fs_kept_trans P));
    [apply makedirs_keeps_fs|].
  intros _ s3.
  apply (bind_final (fs_kept P) (fs_kept_trans P)).
  { destruct (Py.startswith acc "SRR");
      [|destruct (Py.startswith acc "SRX" || Py.startswith acc "SRP")].
    - apply (bind_final (fs_kept P) (fs_kept_trans P)); [apply Hbin|].
      intros b s4.
      apply (bind_final (fs_kept P) (fs_kept_trans P)); [apply Hjob|].
      intros p s5.
      apply (bind_final (fs_kept P) (fs_kept_trans P));
        [|intros; apply fs_kept_refl].
      unfold SRA.jobs_from_SRR.
      apply (bind_final (fs_kept P) (fs_kept_trans P)); [apply Hbin|].
      intros b' s6.
      apply (bind_final (fs_kept P) (fs_kept_trans P)); [apply Hjob|].
      intros f s7.
      apply (bind_final (fs_kept P) (fs_kept_trans P)); [apply Hjob|].
      intros; apply fs_kept_refl.
    - apply (bind_final (fs_kept P) (fs_kept_trans P)); [apply Hbin|].
      intros b s4.
      apply (bind_final (fs_kept P) (fs_kept_trans P)); [apply Hjob|].
      intros p s5.
      apply (bind_final (fs_kept P) (fs_kept_trans P));
        [|intros; apply fs_kept_refl].
      unfold SRA.jobs_from_SRXP.
      apply (bind_final (fs_kept P) (fs_kept_trans P)); [apply Hjob|].
      intros; apply fs_kept_refl.
    - apply fs_kept_refl. }
  intros [prefetch_job fasterq_dump_jobs] s4.
  apply (bind_final (fs_kept P) (fs_kept_trans P)).
  { apply (for_each_final (fs_kept P) (fs_kept_refl P) (fs_kept_trans P)).
    intros [] job s. unfold parents_append.
    destruct (heap s !! job); [by apply fs_kept_same|apply fs_kept_refl]. }
  intros _ s5.
  apply (bind_final (fs_kept P) (fs_kept_trans P)); [apply Hjob|].
  intros; apply fs_kept_refl.
Qed.

(** the call leaves alone every location that is apart from the temporary
    directories of its accessions *)
Lemma sra_jobs_keep_fs accessions w :
  fs_kept (fun q => forall acc, acc ∈ accessions ->
                      apart (resolve (Py.path_join (SRA.tmpdir self) acc)) q)
          w
          (final_state
             (SRA.jobs_from_accessions resolve self accessions datadir w)).
Proof.
  unfold SRA.jobs_from_accessions. generalize (@nil (option job_ref)).
  revert w. induction accessions as [|acc accessions IH]; intros w jobs.
  - apply fs_kept_refl.
  - cbn [for_each].
    set (P := fun q => forall acc0, acc0 ∈ acc :: accessions ->
                apart (resolve (Py.path_join (SRA.tmpdir self) acc0)) q).
    apply (bind_final (fs_kept P) (fs_kept_trans P)).
    + apply (bind_final (fs_kept P) (fs_kept_trans P)); [apply fs_kept_refl|].
      intros downloaded s1. destruct downloaded.
      * apply (bind_final (fs_kept P) (fs_kept_trans P));
          [|intros; apply fs_kept_refl].
        apply fs_kept_same. unfold logger_info.
        by destruct (_ <=? _)%nat.
      * apply (bind_final (fs_kept P) (fs_kept_trans P));
          [|intros; apply fs_kept_refl].
        intros q Hq. apply accession_jobs_keeps_fs. apply Hq. by left.
    + intros jobs' s1 q Hq. apply IH. intros acc0 Hin. apply Hq. by right.
Qed.

(** Whether an accession is found in the data directory when its turn comes
    is whether it was there at the call, provided its place in the data
    directory is apart from the temporary directories of the accessions
    before it. *)
Lemma sra_downloaded_at_call accessions w k acc :
  (forall i b, (i < k)%nat -> accessions !! i = Some b ->
     apart (resolve (Py.path_join (SRA.tmpdir self) b))
           (resolve (Py.path_join datadir acc))) ->
  sra_downloaded resolve self datadir accessions w k acc
  = FS.exists_ (resolve (Py.path_join datadir acc)) (fs w).
Proof.
  intros Hapart. unfold sra_downloaded, sra_store_at, FS.exists_.
  rewrite (sra_jobs_keep_fs (take k accessions) w); [done|].
  intros b Hb. apply list_elem_of_lookup in Hb as [i Hi].
  apply lookup_take_Some in Hi as [Hi Hlt]. by apply (Hapart i).
Qed.

End SRAFiles.

(** ** [SRA.jobs_from_accessions]: the jobs of an accession *)

(** the prefetch job, the fasterq-dump jobs and the clean job of a processed
    accession whose first job is stored at [n] *)
Definition sra_turn_group (seg : string * nat)
  : option job_ref * list job_ref * job_ref :=
  let '(acc, n) := seg in
  if Py.startswith acc "SRR" then (Some n, [n + 1; n + 2], n + 3)%nat
  else if Py.startswith acc "SRX" || Py.startswith acc "SRP" then
    (Some n, [n + 1], n + 2)%nat
  else (None, [], n).

(** lines 149 to 151: what the turn of an accession adds to the list *)
Definition sra_group_jobs
    (g : option (option job_ref * list job_ref * job_ref))
  : list (option job_ref) :=
  match g with
  | Some (prefetch_job, fasterq_dump_jobs, clean_job) =>
      [prefetch_job] ++ (Some <$> fasterq_dump_jobs) ++ [Some clean_job]
  | None => []
  end.

Lemma sra_turn_group_jobs (o : option (string * nat)) :
  sra_turn_refs o = sra_group_jobs (option_map sra_turn_group o).
Proof.
  destruct o as [[acc n]|]; [|done].
  unfold sra_turn_refs, sra_accession_refs, sra_turn_group. simpl.
  destruct (Py.startswith acc "SRR"); [done|].
  by destruct (Py.startswith acc "SRX" || Py.startswith acc "SRP").
Qed.

(** lines 126 to 136: the fasterq-dump jobs of an accession, by its prefix *)
Definition sra_dump_jobs (h : list Job) (acc : string) (jobs : list job_ref)
  : Prop :=
  if Py.startswith acc "SRR" then
    exists f c F C,
      jobs = [f; c] /\
      h !! f = Some F /\ name F = Some ("sra_" +:+ acc +:+ "_fasterqdump") /\
      h !! c = Some C /\ name C = Some ("sra_" +:+ acc +:+ "_compress")
  else if Py.startswith acc "SRX" || Py.startswith acc "SRP" then
    exists f F,
      jobs = [f] /\
      h !! f = Some F /\
      name F = Some ("sra_" +:+ acc +:+ "_fasterqdump+gzip")
  else jobs = [].

(** C7. When [SRA.jobs_from_accessions] returns its list, the parent links
    are all in place. Every accession that is not in the data directory when
    its turn comes has its group in the list: its prefetch job, its
    fasterq-dump jobs (two for [SRR], one for [SRX] and [SRP], none
    otherwise) and its clean job; each fasterq-dump job has as parents those
    it was constructed with (fasterq-dump jobs of the same accession)
    followed by the accession's prefetch job, appended after the
    construction, and the clean job has exactly the accession's fasterq-dump
    jobs as parents. An accession found in the data directory adds nothing. *)
Theorem sra_parent_links_set_on_return
    (resolve : string -> FS.loc) (self : SRA.t) (accessions : list string)
    (datadir : string) (w : World) (jobs : list (option job_ref)) (w' : World) :
  SRA.jobs_from_accessions resolve self accessions datadir w
    = Returned jobs w' ->
  exists groups : list (option (option job_ref * list job_ref * job_ref)),
    length groups = length accessions /\
    jobs = concat (sra_group_jobs <$> groups) /\
    forall k acc, accessions !! k = Some acc ->
      if sra_downloaded resolve self datadir accessions w k acc
      then groups !! k = Some None
      else
        exists prefetch_job fasterq_dump_jobs clean_job,
          groups !! k = Some (Some (prefetch_job, fasterq_dump_jobs, clean_job)) /\
          sra_dump_jobs (heap w') acc fasterq_dump_jobs /\
          (fasterq_dump_jobs ≠ [] ->
           exists p P, prefetch_job = Some p /\ heap w' !! p = Some P /\
                       parents P = [] /\
                       name P = Some ("sra_" +:+ acc +:+ "_prefetch")) /\
          (forall f, f ∈ fasterq_dump_jobs ->
             exists J constructed,
               heap w' !! f = Some J /\
               parents J = constructed ++ [prefetch_job] /\
               forall q, q ∈ constructed ->
                         exists f', q = Some f' /\ f' ∈ fasterq_dump_jobs) /\
          (exists C, heap w' !! clean_job = Some C /\
                     parents C = Some <$> fasterq_dump_jobs /\
                     kind C = Callable SRA_move_and_clean
                                [Py.path_join (SRA.tmpdir self) acc; datadir] /\
                     name C = Some ("sra_" +:+ acc +:+ "_clean")).
Proof.
  intros H. apply sra_jobs_turns in H as (turns & Hlen & -> & Hturns).
  exists (option_map sra_turn_group <$> turns). split; [|split].
  - by rewrite length_fmap.
  - rewrite <- list_fmap_compose. f_equal.
    apply list_fmap_ext. intros _ o _. apply sra_turn_group_jobs.
  - intros k acc Hk. specialize (Hturns k acc Hk).
    rewrite list_lookup_fmap.
    destruct (sra_downloaded resolve self datadir accessions w k acc);
      [by rewrite Hturns|].
    destruct Hturns as (n & -> & Hst & Htk).
    unfold sra_stored, sra_toolkit_needed in *. simpl in *.
    unfold sra_accession_heap in Hst. unfold sra_dump_jobs.
    destruct (Py.startswith acc "SRR") eqn:E1;
      [|destruct (Py.startswith acc "SRX" || Py.startswith acc "SRP") eqn:E2];
      (destruct (SRA.binaries self) as [b|];
       [|try (by destruct Htk as [? ?])]);
      eexists _, _, _; (split; [reflexivity|]).
    + pose proof (Hst 0%nat _ eq_refl) as H0. rewrite Nat.add_0_r in H0.
      pose proof (Hst 1%nat _ eq_refl) as H1.
      pose proof (Hst 2%nat _ eq_refl) as H2.
      pose proof (Hst 3%nat _ eq_refl) as H3.
      split; [by eexists _, _, _, _|]. split; [|split].
      * intros _. by eexists _, _.
      * intros f Hf.
        apply elem_of_cons in Hf as [->|Hf];
          [|apply list_elem_of_singleton in Hf as ->].
        -- eexists _, []. split; [done|]. split; [done|].
           intros q Hq. by apply elem_of_nil in Hq.
        -- eexists _, [Some (n + 1)%nat]. split; [done|]. split; [done|].
           intros q Hq. apply list_elem_of_singleton in Hq as ->.
           eexists. split; [done|]. apply elem_of_cons. by left.
      * by eexists.
    + pose proof (Hst 0%nat _ eq_refl) as H0. rewrite Nat.add_0_r in H0.
      pose proof (Hst 1%nat _ eq_refl) as H1.
      pose proof (Hst 2%nat _ eq_refl) as H2.
      split; [by eexists _, _|]. split; [|split].
      * intros _. by eexists _, _.
      * intros f Hf. apply list_elem_of_singleton in Hf as ->.
        eexists _, []. split; [done|]. split; [done|].
        intros q Hq. by apply elem_of_nil in Hq.
      * by eexists.
    + pose proof (Hst 0%nat _ eq_refl) as H0. rewrite Nat.add_0_r in H0.
      split; [done|]. split; [done|]. split; [|by eexists].
      intros f Hf. by apply elem_of_nil in Hf.
    + pose proof (Hst 0%nat _ eq_refl) as H0. rewrite Nat.add_0_r in H0.
      split; [done|]. split; [done|]. split; [|by eexists].
      intros f Hf. by apply elem_of_nil in Hf.
Qed.

(** one read is already in the data directory; the store holds a job *)
Definition world_with_read : World :=
  {| fs := {[ ["data"] := FS.Dir; ["data"; "SRR1"] := FS.Dir ]};
     heap := [ {| kind := Command "true"; parents := [];
                  can_start := None; name := Some "earlier" |} ];
     ncbi_joib_id := 0; logger_level := INFO; logged := [] |}.

(** a second run: [SRR1] is in the data directory already *)
Definition sra_rerun_example : Result World (list (option job_ref)) :=
  SRA.jobs_from_accessions resolve_example sra_example
    ["SRR1"; "SRR2"; "SRX3"; "ERR4"] "data" world_with_read.

Lemma sra_parent_links_set_on_return_witness :
  exists jobs w',
    sra_rerun_example = Returned jobs w' /\
    exists groups : list (option (option job_ref * list job_ref * job_ref)),
      length groups = 4%nat /\
      jobs = concat (sra_group_jobs <$> groups) /\
      forall k acc, ["SRR1"; "SRR2"; "SRX3"; "ERR4"] !! k = Some acc ->
        if sra_downloaded resolve_example sra_example "data"
             ["SRR1"; "SRR2"; "SRX3"; "ERR4"] world_with_read k acc
        then groups !! k = Some None
        else
          exists prefetch_job fasterq_dump_jobs clean_job,
            groups !! k
              = Some (Some (prefetch_job, fasterq_dump_jobs, clean_job)) /\
            sra_dump_jobs (heap w') acc fasterq_dump_jobs /\
            (fasterq_dump_jobs ≠ [] ->
             exists p P, prefetch_job = Some p /\ heap w' !! p = Some P /\
                         parents P = [] /\
                         name P = Some ("sra_" +:+ acc +:+ "_prefetch")) /\
            (forall f, f ∈ fasterq_dump_jobs ->
               exists J constructed,
                 heap w' !! f = Some J /\
                 parents J = constructed ++ [prefetch_job] /\
                 forall q, q ∈ constructed ->
                           exists f', q = Some f' /\ f' ∈ fasterq_dump_jobs) /\
            (exists C, heap w' !! clean_job = Some C /\
                       parents C = Some <$> fasterq_dump_jobs /\
                       kind C = Callable SRA_move_and_clean
                                  [Py.path_join (SRA.tmpdir sra_example) acc;
                                   "data"] /\
                       name C = Some ("sra_" +:+ acc +:+ "_clean")).
Proof.
  eexists _, _. split; [vm_compute; reflexivity|].
  apply (sra_parent_links_set_on_return resolve_example sra_example
           ["SRR1"; "SRR2"; "SRX3"; "ERR4"] "data" world_with_read).
  vm_compute. reflexivity.
Defined.

(** the list of that run: nothing for [SRR1], four jobs for [SRR2], three
    for [SRX3], and [None] with a clean job for [ERR4] *)
Example sra_rerun_jobs :
  exists w',
    sra_rerun_example
    = Returned [Some 1; Some 2; Some 3; Some 4; Some 5; Some 6; Some 7;
                None; Some 8]%nat w' /\
    parents <$> heap w'
    = [ []; []; [Some 1]; [Some 2; Some 1]; [Some 2; Some 3];
        []; [Some 5]; [Some 6]; [] ]%nat.
Proof. eexists. split; vm_compute; reflexivity. Qed.

(** in that run only [SRR1] is found in the data directory when its turn
    comes *)
Example sra_rerun_turns :
  imap (sra_downloaded resolve_example sra_example "data"
          ["SRR1"; "SRR2"; "SRX3"; "ERR4"] world_with_read)
       ["SRR1"; "SRR2"; "SRX3"; "ERR4"]
  = [true; false; false; false].
Proof. vm_compute. reflexivity. Qed.

(** C8. Every accession that is not in the data directory when its turn
    comes contributes to the returned list: jobs of the store, and nothing
    else, when it starts with [SRR], [SRX] or [SRP], so that when all the
    processed accessions do, every element of the list is a job; and, when it
    starts with none of them, [None] where its prefetch job would be,
    followed by a clean job that has no parent. An accession found in the
    data directory contributes nothing; and an accession is found there when
    its turn comes exactly when it was there at the call, provided its place
    in the data directory is apart from the temporary directories of the
    accessions before it. *)
Theorem sra_jobs_or_none_by_prefix
    (resolve : string -> FS.loc) (self : SRA.t) (accessions : list string)
    (datadir : string) (w : World) (jobs : list (option job_ref)) (w' : World) :
  SRA.jobs_from_accessions resolve self accessions datadir w
    = Returned jobs w' ->
  let is_job := fun o : option job_ref =>
                  exists j, o = Some j /\ is_Some (heap w' !! j) in
  exists segments : list (list (option job_ref)),
    length segments = length accessions /\
    jobs = concat segments /\
    (forall k acc, accessions !! k = Some acc ->
       exists segment, segments !! k = Some segment /\
         if sra_downloaded resolve self datadir accessions w k acc
         then segment = []
         else if sra_known_prefix acc
         then segment ≠ [] /\ Forall is_job segment
         else exists c C,
                segment = [None; Some c] /\ heap w' !! c = Some C /\
                parents C = [] /\
                kind C = Callable SRA_move_and_clean
                           [Py.path_join (SRA.tmpdir self) acc; datadir] /\
                name C = Some ("sra_" +:+ acc +:+ "_clean")) /\
    ((forall k acc, accessions !! k = Some acc ->
        sra_downloaded resolve self datadir accessions w k acc = false ->
        sra_known_prefix acc = true) ->
     Forall is_job jobs) /\
    (forall k acc, accessions !! k = Some acc ->
       (forall i b, (i < k)%nat -> accessions !! i = Some b ->
          apart (resolve (Py.path_join (SRA.tmpdir self) b))
                (resolve (Py.path_join datadir acc))) ->
       sra_downloaded resolve self datadir accessions w k acc
       = FS.exists_ (resolve (Py.path_join datadir acc)) (fs w)).
Proof.
  intros H is_job. apply sra_jobs_turns in H as (turns & Hlen & -> & Hturns).
  assert (Hseg : forall k acc, accessions !! k = Some acc ->
     exists segment, (sra_turn_refs <$> turns) !! k = Some segment /\
       if sra_downloaded resolve self datadir accessions w k acc
       then segment = []
       else if sra_known_prefix acc
       then segment ≠ [] /\ Forall is_job segment
       else exists c C,
              segment = [None; Some c] /\ heap w' !! c = Some C /\
              parents C = [] /\
              kind C = Callable SRA_move_and_clean
                         [Py.path_join (SRA.tmpdir self) acc; datadir] /\
              name C = Some ("sra_" +:+ acc +:+ "_clean")).
  { intros k acc Hk. specialize (Hturns k acc Hk).
    rewrite list_lookup_fmap.
    destruct (sra_downloaded resolve self datadir accessions w k acc).
    { rewrite Hturns. by eexists. }
    destruct Hturns as (n & -> & Hst & Htk). eexists. split; [done|].
    unfold sra_stored, sra_toolkit_needed, sra_known_prefix in *.
    simpl in *. unfold sra_accession_refs, sra_accession_heap in *.
    rewrite <- orb_assoc.
    destruct (Py.startswith acc "SRR") eqn:E1;
      [|destruct (Py.startswith acc "SRX" || Py.startswith acc "SRP") eqn:E2];
      simpl.
    - destruct (SRA.binaries self) as [b|]; [|by destruct Htk as [? ?]].
      pose proof (Hst 0%nat _ eq_refl) as H0. rewrite Nat.add_0_r in H0.
      pose proof (Hst 1%nat _ eq_refl) as H1.
      pose proof (Hst 2%nat _ eq_refl) as H2.
      pose proof (Hst 3%nat _ eq_refl) as H3.
      split; [done|].
      repeat (apply Forall_cons; split; [by eexists|]). apply Forall_nil_2.
    - destruct (SRA.binaries self) as [b|]; [|by destruct Htk as [? ?]].
      pose proof (Hst 0%nat _ eq_refl) as H0. rewrite Nat.add_0_r in H0.
      pose proof (Hst 1%nat _ eq_refl) as H1.
      pose proof (Hst 2%nat _ eq_refl) as H2.
      split; [done|].
      repeat (apply Forall_cons; split; [by eexists|]). apply Forall_nil_2.
    - exists n, (sra_clean_job self datadir acc []).
      split; [done|]. split; [|done].
      destruct (SRA.binaries self);
        pose proof (Hst 0%nat _ eq_refl) as H0; rewrite Nat.add_0_r in H0;
        exact H0. }
  exists (sra_turn_refs <$> turns).
  split; [by rewrite length_fmap|]. split; [done|]. split; [exact Hseg|].
  split; [|intros k acc _ Hap; by apply sra_downloaded_at_call].
  intros Hknown. apply Forall_concat, Forall_forall.
  intros segment Hin. apply list_elem_of_lookup in Hin as [k Hk].
  assert (Hlt : (k < length accessions)%nat).
  { apply lookup_lt_Some in Hk. by rewrite length_fmap, Hlen in Hk. }
  apply lookup_lt_is_Some in Hlt as [acc Hacc].
  destruct (Hseg k acc Hacc) as (segment' & Hk' & Hs).
  rewrite Hk in Hk'. inversion Hk'; subst segment'; clear Hk'.
  specialize (Hknown k acc Hacc).
  destruct (sra_downloaded resolve self datadir accessions w k acc).
  - subst. apply Forall_nil_2.
  - rewrite Hknown in Hs by done. by destruct Hs.
Qed.

Lemma sra_jobs_or_none_by_prefix_witness :
  exists jobs w',
    sra_rerun_example = Returned jobs w' /\
    let is_job := fun o : option job_ref =>
                    exists j, o = Some j /\ is_Some (heap w' !! j) in
    exists segments : list (list (option job_ref)),
      length segments = 4%nat /\
      jobs = concat segments /\
      (forall k acc, ["SRR1"; "SRR2"; "SRX3"; "ERR4"] !! k = Some acc ->
         exists segment, segments !! k = Some segment /\
           if sra_downloaded resolve_example sra_example "data"
                ["SRR1"; "SRR2"; "SRX3"; "ERR4"] world_with_read k acc
           then segment = []
           else if sra_known_prefix acc
           then segment ≠ [] /\ Forall is_job segment
           else exists c C,
                  segment = [None; Some c] /\ heap w' !! c = Some C /\
                  parents C = [] /\
                  kind C = Callable SRA_move_and_clean
                             [Py.path_join (SRA.tmpdir sra_example) acc;
                              "data"] /\
                  name C = Some ("sra_" +:+ acc +:+ "_clean")) /\
      ((forall k acc, ["SRR1"; "SRR2"; "SRX3"; "ERR4"] !! k = Some acc ->
          sra_downloaded resolve_example sra_example "data"
            ["SRR1"; "SRR2"; "SRX3"; "ERR4"] world_with_read k acc = false ->
          sra_known_prefix acc = true) ->
       Forall is_job jobs) /\
      (forall k acc, ["SRR1"; "SRR2"; "SRX3"; "ERR4"] !! k = Some acc ->
         (forall i b, (i < k)%nat ->
            ["SRR1"; "SRR2"; "SRX3"; "ERR4"] !! i = Some b ->
            apart (resolve_example (Py.path_join (SRA.tmpdir sra_example) b))
                  (resolve_example (Py.path_join "data" acc))) ->
         sra_downloaded resolve_example sra_example "data"
           ["SRR1"; "SRR2"; "SRX3"; "ERR4"] world_with_read k acc
         = FS.exists_ (resolve_example (Py.path_join "data" acc))
                      (fs world_with_read)).
Proof.
  eexists _, _. split; [vm_compute; reflexivity|].
  apply (sra_jobs_or_none_by_prefix resolve_example sra_example
           ["SRR1"; "SRR2"; "SRX3"; "ERR4"] "data" world_with_read).
  vm_compute. reflexivity.
Defined.

(** ** [download_to]: the two directories *)

Section Directories.

Variable resolve : string -> FS.loc.

Lemma prepare_directories_Returned datadir logdir w w1 :
  Download.prepare_directories resolve datadir (Some logdir) w
    = Returned tt w1 ->
  let L := resolve logdir in
  let D := resolve datadir in
  fs w1 !! L = Some FS.Dir /\
  (is_Some (fs w !! L) ->
   forall q, L `prefix_of` q -> q ≠ L -> fs w1 !! q = None) /\
  (forall q n, ~ L `prefix_of` q -> fs w !! q = Some n ->
               fs w1 !! q = Some n) /\
  (~ L `prefix_of` D -> fs w1 !! D = Some FS.Dir).
Proof.
  intros H. unfold Download.prepare_directories in H.
  apply bind_Returned in H as (? & s1 & Hm1 & H).
  apply fs_update_Returned in Hm1 as (m1 & Hmk1 & ->).
  apply makedirs_inr in Hmk1 as (HD1 & Hkeep1 & _).
  apply bind_Returned in H as (? & s2 & Hm2 & H).
  apply bind_Returned in Hm2 as (present & s & Hp & Hm2).
  unfold path_exists in Hp. inversion Hp; subst; clear Hp.
  simpl in Hm2. unfold FS.exists_ in Hm2.
  destruct (m1 !! resolve logdir) as [n1|] eqn:Hlog1.
  - (* the log directory is there: [rmtree], then [makedirs] *)
    apply fs_update_Returned in Hm2 as (m2 & Hrm & ->).
    apply rmtree_inr in Hrm as (_ & Hgone & Hrest). simpl in Hgone, Hrest.
    apply fs_update_Returned in H as (m3 & Hmk3 & ->).
    apply makedirs_inr in Hmk3 as (HL3 & Hkeep3 & Hnew3). simpl in *.
    split; [done|]. split; [|split].
    + intros _ q Hq Hne. destruct (m3 !! q) as [n|] eqn:E; [|done].
      apply Hnew3 in E as [E|[_ Hpre]].
      * by rewrite (Hgone q Hq) in E.
      * destruct Hne. by apply (anti_symm prefix).
    + intros q n Hq Hn. apply Hkeep3. rewrite (Hrest q Hq). by apply Hkeep1.
    + intros HD. apply Hkeep3. by rewrite (Hrest _ HD).
  - (* it is not: [makedirs] only *)
    apply ret_Returned in Hm2 as [_ ->].
    apply fs_update_Returned in H as (m3 & Hmk3 & ->).
    apply makedirs_inr in Hmk3 as (HL3 & Hkeep3 & Hnew3). simpl in *.
    split; [done|]. split; [|split].
    + intros [n Hn]. by rewrite (Hkeep1 _ _ Hn) in Hlog1.
    + intros q n _ Hn. by apply Hkeep3, Hkeep1.
    + intros _. by apply Hkeep3.
Qed.

End Directories.

(** C9, as the code has it. Before [download_to] builds its [JobManager],
    the log directory is made; a log directory that was there is removed with
    all it held and is made anew, empty; the data directory is made with
    [exist_ok=True]; and whatever existed outside the log directory, so the
    contents of the data directory that do not lie in the log directory, is
    left as it was, on a first run as on a later one. The data directory
    itself is there afterwards when it does not lie in the log directory. *)
Theorem download_to_resets_log_directory_only
    (resolve : string -> FS.loc) (acc_by_src : Download.dict (list string))
    (src_manager_get : string -> M World Download.Manipulator)
    (fuel : nat) (answers : nat -> nat)
    (datadir logdir : string) (max_process : nat) (w : World) :
  (Download.download_to resolve acc_by_src src_manager_get fuel answers
     datadir (Some logdir) max_process w).2 ≠ [] ->
  exists w1,
    Download.prepare_directories resolve datadir (Some logdir) w
      = Returned tt w1 /\
    fs w1 !! resolve logdir = Some FS.Dir /\
    (is_Some (fs w !! resolve logdir) ->
     forall q, resolve logdir `prefix_of` q -> q ≠ resolve logdir ->
               fs w1 !! q = None) /\
    (forall q n, ~ resolve logdir `prefix_of` q -> fs w !! q = Some n ->
                 fs w1 !! q = Some n) /\
    (~ resolve logdir `prefix_of` resolve datadir ->
     fs w1 !! resolve datadir = Some FS.Dir).
Proof.
  intros Hbuilt. unfold Download.download_to in Hbuilt.
  destruct (bind _ _ w) as [jobs w'| |] eqn:E; [|done|done].
  apply bind_Returned in E as ([] & w1 & Hprep & _).
  exists w1. split; [done|].
  by apply (prepare_directories_Returned resolve datadir logdir w w1).
Qed.

(** a run directory with old logs and a genome already downloaded *)
Definition world_with_logs : World :=
  {| fs := {[ ["logs"] := FS.Dir; ["logs"; "old.log"] := FS.File;
              ["data"] := FS.Dir; ["data"; "genome.gz"] := FS.File ]};
     heap := []; ncbi_joib_id := 0; logger_level := INFO; logged := [] |}.

Definition source_example (source : string) : M World Download.Manipulator :=
  ret (Download.SRA_manipulator resolve_example sra_example).

(** a first run: a genome is in the data directory, and there is no log
    directory yet *)
Definition world_without_logs : World :=
  {| fs := {[ ["data"] := FS.Dir; ["data"; "genome.gz"] := FS.File ]};
     heap := []; ncbi_joib_id := 0; logger_level := INFO; logged := [] |}.

Lemma download_to_resets_log_directory_only_witness :
  (exists w1,
      Download.prepare_directories resolve_example "data" (Some "logs")
        world_with_logs = Returned tt w1 /\
      fs w1 !! resolve_example "logs" = Some FS.Dir /\
      (is_Some (fs world_with_logs !! resolve_example "logs") ->
       forall q, resolve_example "logs" `prefix_of` q ->
                 q ≠ resolve_example "logs" -> fs w1 !! q = None) /\
      (forall q n, ~ resolve_example "logs" `prefix_of` q ->
                   fs world_with_logs !! q = Some n -> fs w1 !! q = Some n) /\
      (~ resolve_example "logs" `prefix_of` resolve_example "data" ->
       fs w1 !! resolve_example "data" = Some FS.Dir)) /\
  (exists w1,
      Download.prepare_directories resolve_example "data" (Some "logs")
        world_without_logs = Returned tt w1 /\
      fs w1 !! resolve_example "logs" = Some FS.Dir /\
      (is_Some (fs world_without_logs !! resolve_example "logs") ->
       forall q, resolve_example "logs" `prefix_of` q ->
                 q ≠ resolve_example "logs" -> fs w1 !! q = None) /\
      (forall q n, ~ resolve_example "logs" `prefix_of` q ->
                   fs world_without_logs !! q = Some n ->
                   fs w1 !! q = Some n) /\
      (~ resolve_example "logs" `prefix_of` resolve_example "data" ->
       fs w1 !! resolve_example "data" = Some FS.Dir)).
Proof.
  split.
  - apply (download_to_resets_log_directory_only resolve_example
             [("sra", ["SRR1"])] source_example 3 (fun _ => 0%nat)
             "data" "logs" 8 world_with_logs).
    vm_compute. discriminate.
  - apply (download_to_resets_log_directory_only resolve_example
             [("sra", ["SRR1"])] source_example 3 (fun _ => 0%nat)
             "data" "logs" 8 world_without_logs).
    vm_compute. discriminate.
Defined.

(** on those two runs the genome is kept, and the old log is gone *)
Example download_to_keeps_the_genome :
  forall w,
    w = world_with_logs \/ w = world_without_logs ->
    exists w1,
      Download.prepare_directories resolve_example "data" (Some "logs") w
        = Returned tt w1 /\
      fs w1 !! ["data"; "genome.gz"] = Some FS.File /\
      fs w1 !! ["logs"; "old.log"] = None.
Proof.
  intros w [-> | ->]; eexists; (split; [vm_compute; reflexivity|]);
    split; vm_compute; reflexivity.
Qed.

(** the log directory is the run directory, with the data directory in it *)
Definition world_with_run_directory : World :=
  {| fs := {[ ["run"] := FS.Dir; ["run"; "data"] := FS.Dir;
              ["run"; "data"; "genome.gz"] := FS.File ]};
     heap := []; ncbi_joib_id := 0; logger_level := INFO; logged := [] |}.

(** C9, as stated, fails when the data directory lies in the log directory
    (or is the log directory): [rmtree(logdir)] takes its contents away. *)
Lemma download_to_may_empty_data_directory :
  (Download.download_to resolve_example [] source_example 1 (fun _ => 0%nat)
     "run/data" (Some "run") 8 world_with_run_directory).2 ≠ [] /\
  exists w1,
    Download.prepare_directories resolve_example "run/data" (Some "run")
      world_with_run_directory = Returned tt w1 /\
    ~ (forall q n, resolve_example "run/data" `prefix_of` q ->
                   fs world_with_run_directory !! q = Some n ->
                   fs w1 !! q = Some n).
Proof.
  split; [vm_compute; discriminate|].
  eexists. split; [vm_compute; reflexivity|].
  intros H.
  specialize (H ["run"; "data"; "genome.gz"] FS.File).
  assert (Hpre : resolve_example "run/data" `prefix_of`
                   ["run"; "data"; "genome.gz"]) by (by exists ["genome.gz"]).
  specialize (H Hpre eq_refl). vm_compute in H. discriminate.
Qed.

(** ** Dictionaries *)

Section DictFacts.
Import Download.
Context {V : Type}.

Lemma dict_get_app_notin (d1 d2 : dict V) (k : string) :
  k ∉ dict_keys d1 -> dict_get (d1 ++ d2) k = dict_get d2 k.
Proof.
  induction d1 as [|[k' v] d1 IH]; simpl; intros Hk; [done|].
  apply not_elem_of_cons in Hk as [Hne Hk].
  destruct (String.eqb k' k) eqn:E; [|by apply IH].
  apply String.eqb_eq in E. congruence.
Qed.

Lemma dict_get_head (d : dict V) (k : string) (v : V) :
  dict_get ((k, v) :: d) k = Some v.
Proof. simpl. by rewrite String.eqb_refl. Qed.

Lemma dict_set_app_notin (d1 d2 : dict V) (k : string) (v : V) :
  k ∉ dict_keys d1 -> dict_set (d1 ++ d2) k v = d1 ++ dict_set d2 k v.
Proof.
  induction d1 as [|[k' v'] d1 IH]; simpl; intros Hk; [done|].
  apply not_elem_of_cons in Hk as [Hne Hk].
  destruct (String.eqb k' k) eqn:E; [|by rewrite IH].
  apply String.eqb_eq in E. congruence.
Qed.

Lemma dict_set_head (d : dict V) (k : string) (v v' : V) :
  dict_set ((k, v) :: d) k v' = (k, v') :: d.
Proof. simpl. by rewrite String.eqb_refl. Qed.

Lemma dict_set_notin (d : dict V) (k : string) (v : V) :
  k ∉ dict_keys d -> dict_set d k v = d ++ [(k, v)].
Proof.
  intros Hk. rewrite <- (app_nil_r d) at 1.
  by rewrite dict_set_app_notin.
Qed.

Lemma dict_from_keys_NoDup (keys : list string) (v : V) :
  NoDup keys -> dict_from_keys keys v = (fun k => (k, v)) <$> keys.
Proof.
  unfold dict_from_keys.
  assert (Hgen : forall (d : dict V),
             NoDup (dict_keys d ++ keys) ->
             foldl (fun d k => dict_set d k v) d keys
             = d ++ ((fun k => (k, v)) <$> keys)).
  { induction keys as [|k keys IH]; intros d Hnd; simpl.
    - by rewrite app_nil_r.
    - assert (Hk : k ∉ dict_keys d).
      { apply NoDup_app in Hnd as (_ & Hd & _). intros Hin.
        apply (Hd k Hin). by left. }
      rewrite dict_set_notin by done. rewrite IH.
      + by rewrite <- app_assoc.
      + unfold dict_keys in *. rewrite fmap_app, <- app_assoc. done. }
  intros Hnd. by apply (Hgen []).
Qed.

End DictFacts.

(** ** Round-robin submission *)

Section RoundRobin.
Import Download.
Context {A : Type}.

(** turn [r]: the job of rank [r] of every source that has one, the sources
    in the order of the dictionary *)
Definition turn (jobs : dict (list A)) (r : nat) : list A :=
  omap (fun sl => sl.2 !! r) jobs.

(** the length of the longest list *)
Definition longest (jobs : dict (list A)) : nat :=
  max_list ((fun sl => length sl.2) <$> jobs).

(** one job of each source in turn, turn after turn *)
Definition round_robin (jobs : dict (list A)) : list A :=
  concat (turn jobs <$> seq 0 (longest jobs)).

(** the positions reached and the jobs left after [r] turns *)
Definition idxs_at (r : nat) (jobs : dict (list A)) : dict nat :=
  (fun sl => (sl.1, r `min` length sl.2)) <$> jobs.

Definition total_at (r : nat) (jobs : dict (list A)) : Z :=
  foldr Z.add 0%Z ((fun sl => Z.of_nat (length sl.2 - r)) <$> jobs).

Lemma dict_keys_idxs_at r jobs : dict_keys (idxs_at r jobs) = dict_keys jobs.
Proof.
  unfold dict_keys, idxs_at. rewrite <- list_fmap_compose.
  by apply list_fmap_ext.
Qed.

Lemma total_at_succ r jobs :
  total_at (S r) jobs = (total_at r jobs - Z.of_nat (length (turn jobs r)))%Z.
Proof.
  unfold total_at, turn.
  induction jobs as [|[s l] jobs IH]; cbn -[Nat.sub Z.of_nat]; [done|].
  rewrite IH. destruct (l !! r) as [j|] eqn:E; cbn -[Nat.sub Z.of_nat].
  - apply lookup_lt_Some in E. lia.
  - apply lookup_ge_None in E. lia.
Qed.

Lemma total_at_pos r jobs : (0 < total_at r jobs)%Z <-> (r < longest jobs)%nat.
Proof.
  unfold total_at, longest.
  induction jobs as [|[s l] jobs IH]; cbn -[Nat.sub Z.of_nat]; [lia|].
  assert (0 <= foldr Z.add 0 ((fun sl : string * list A =>
            Z.of_nat (length sl.2 - r)) <$> jobs))%Z.
  { clear. induction jobs as [|[s l] jobs IH]; cbn -[Nat.sub Z.of_nat]; lia. }
  lia.
Qed.

Lemma turn_beyond r jobs : (longest jobs <= r)%nat -> turn jobs r = [].
Proof.
  unfold turn, longest. induction jobs as [|[s l] jobs IH]; simpl; [done|].
  intros H. rewrite lookup_ge_None_2 by (by eapply Nat.max_lub_l).
  apply IH. by eapply Nat.max_lub_r.
Qed.

End RoundRobin.

Section Submission.
Import Download.

Lemma while_unfold {S B} (fuel : nat) (cond : B -> M S bool)
    (body : B -> M S B) (acc : B) :
  while fuel cond body acc =
  bind (cond acc) (fun go =>
    if go then
      match fuel with
      | O => fun s => Unfinished s
      | Datatypes.S fuel' => bind (body acc) (while fuel' cond body)
      end
    else ret acc).
Proof. by destruct fuel. Qed.

Lemma bind_run {S A B} (m : M S A) (k : A -> M S B) s a s' :
  m s = Returned a s' -> bind m k s = k a s'.
Proof. unfold bind. by intros ->. Qed.

Lemma submission_pass (r : nat) (todo : dict (list (option job_ref))) :
  forall (seen : dict (list (option job_ref))) (idxs_seen : dict nat)
         (total : Z) (e : Engine),
    NoDup (dict_keys (seen ++ todo)) ->
    dict_keys idxs_seen = dict_keys seen ->
    for_each (dict_keys todo) (submission_step (seen ++ todo))
             (idxs_seen ++ idxs_at r todo, total) e
    = Returned (idxs_seen ++ idxs_at (S r) todo,
                (total - Z.of_nat (length (turn todo r)))%Z)
               {| calls := calls e ++ (add_job <$> turn todo r);
                  replies := replies e |}.
Proof.
  induction todo as [|[s l] todo IH]; intros seen idxs_seen total e Hnd Hk.
  - simpl. unfold ret. rewrite Z.sub_0_r, !app_nil_r. by destruct e.
  - assert (Hs : s ∉ dict_keys seen).
    { unfold dict_keys in *. rewrite fmap_app in Hnd.
      apply NoDup_app in Hnd as (_ & Hd & _). intros Hin.
      apply (Hd s Hin). by left. }
    cbn [dict_keys fmap list_fmap for_each fst].
    unfold bind at 1. unfold submission_step at 1.
    unfold bind at 1, subscript at 1.
    rewrite dict_get_app_notin by (by rewrite Hk).
    cbn [idxs_at fmap list_fmap fst snd]. rewrite dict_get_head.
    unfold ret at 1. unfold bind at 1, subscript at 1.
    rewrite dict_get_app_notin, dict_get_head by done.
    unfold ret at 1.
    rewrite dict_set_app_notin, dict_set_head by (by rewrite Hk).
    assert (Hnd' : NoDup (dict_keys ((seen ++ [(s, l)]) ++ todo)))
      by (by rewrite <- app_assoc).
    unfold turn. cbn [omap list_omap snd]. fold (turn todo r).
    destruct (l !! r) as [j|] eqn:E.
    + pose proof (lookup_lt_Some _ _ _ E) as Hlt.
      rewrite Nat.min_l by lia.
      assert ((r <? length l)%nat = true) as -> by (apply Nat.ltb_lt; lia).
      unfold bind at 1, item at 1. rewrite E. unfold ret at 1.
      unfold bind at 1, call at 1. unfold ret at 1.
      specialize (IH (seen ++ [(s, l)])
                     (idxs_seen ++ [(s, (r + 1)%nat)]) (total - 1)%Z
                     {| calls := calls e ++ [add_job j];
                        replies := replies e |} Hnd').
      rewrite <- !app_assoc in IH. simpl app in IH.
      unfold idxs_at in *.
      etrans; [apply IH|].
      * unfold dict_keys in *. by rewrite !fmap_app, Hk.
      * cbn [fmap list_fmap fst snd length]. f_equal.
        -- f_equal; [|lia]. do 3 f_equal. lia.
        -- by rewrite <- app_assoc.
    + pose proof (lookup_ge_None_1 _ _ E) as Hge.
      rewrite Nat.min_r by lia.
      assert ((length l <? length l)%nat = false) as ->
          by (apply Nat.ltb_ge; lia).
      unfold ret at 1.
      specialize (IH (seen ++ [(s, l)])
                     (idxs_seen ++ [(s, length l)]) total e Hnd').
      rewrite <- !app_assoc in IH. simpl app in IH.
      unfold idxs_at in *.
      etrans; [apply IH|].
      * unfold dict_keys in *. by rewrite !fmap_app, Hk.
      * cbn [fmap list_fmap fst snd].
        by rewrite (Nat.min_r (S r) (length l)) by lia.
Qed.

Lemma submission_round_turn (r : nat) (jobs : dict (list (option job_ref)))
    (e : Engine) :
  NoDup (dict_keys jobs) ->
  submission_round jobs (idxs_at r jobs, total_at r jobs) e
  = Returned (idxs_at (S r) jobs, total_at (S r) jobs)
             {| calls := calls e ++ (add_job <$> turn jobs r);
                replies := replies e |}.
Proof.
  intros Hnd. unfold submission_round.
  etrans; [exact (submission_pass r jobs [] [] (total_at r jobs) e Hnd eq_refl)|].
  by rewrite total_at_succ.
Qed.

(** the [while] loop, from turn [r] on, with fuel for the turns left *)
Lemma submission_turns (jobs : dict (list (option job_ref))) (n : nat) :
  forall (r fuel : nat) (e : Engine),
    NoDup (dict_keys jobs) ->
    longest jobs = (r + n)%nat -> (n <= fuel)%nat ->
    while fuel (fun st => ret (0 <? st.2)%Z) (submission_round jobs)
          (idxs_at r jobs, total_at r jobs) e
    = Returned (idxs_at (r + n) jobs, total_at (r + n) jobs)
               {| calls := calls e ++
                           (add_job <$> concat (turn jobs <$> seq r n));
                  replies := replies e |}.
Proof.
  induction n as [|n IH]; intros r fuel e Hnd Hlong Hfuel;
    rewrite while_unfold; unfold bind at 1, ret at 1; cbn [snd].
  - assert ((0 <? total_at r jobs)%Z = false) as ->.
    { apply Z.ltb_ge, Z.nlt_ge. rewrite total_at_pos. lia. }
    unfold ret. simpl. rewrite Nat.add_0_r, app_nil_r. by destruct e.
  - assert ((0 <? total_at r jobs)%Z = true) as ->.
    { apply Z.ltb_lt, total_at_pos. lia. }
    destruct fuel as [|fuel]; [lia|].
    unfold bind at 1. rewrite submission_round_turn by done.
    rewrite (IH (S r) fuel) by (done || lia).
    cbn [seq fmap list_fmap concat calls replies].
    rewrite fmap_app, app_assoc. do 3 f_equal; lia.
Qed.

(** line 64: the lengths of the lists *)
Lemma submission_lengths (todo : dict (list (option job_ref))) :
  forall (seen : dict (list (option job_ref))) (lens : list Z) (e : Engine),
    NoDup (dict_keys (seen ++ todo)) ->
    for_each (dict_keys todo)
      (fun lens source =>
         let* l := subscript (seen ++ todo) source in
         ret (lens ++ [Z.of_nat (length l)]))
      lens e
    = Returned (lens ++ ((fun sl => Z.of_nat (length sl.2)) <$> todo)) e.
Proof.
  induction todo as [|[s l] todo IH]; intros seen lens e Hnd.
  - simpl. by rewrite app_nil_r.
  - assert (Hs : s ∉ dict_keys seen).
    { unfold dict_keys in *. rewrite fmap_app in Hnd.
      apply NoDup_app in Hnd as (_ & Hd & _). intros Hin.
      apply (Hd s Hin). by left. }
    cbn [dict_keys fmap list_fmap for_each fst snd].
    unfold bind at 1. unfold bind at 1, subscript at 1.
    rewrite dict_get_app_notin, dict_get_head by done.
    unfold ret at 1 2.
    specialize (IH (seen ++ [(s, l)]) (lens ++ [Z.of_nat (length l)]) e).
    rewrite <- !app_assoc in IH. simpl app in IH.
    etrans; [apply IH; done|]. done.
Qed.

Lemma total_at_0 (jobs : dict (list (option job_ref))) :
  foldr Z.add 0%Z ((fun sl => Z.of_nat (length sl.2)) <$> jobs)
  = total_at 0 jobs.
Proof.
  unfold total_at. f_equal. apply list_fmap_ext.
  intros _ sl _. simpl. f_equal. lia.
Qed.

Lemma idxs_at_0 (jobs : dict (list (option job_ref))) :
  NoDup (dict_keys jobs) ->
  dict_from_keys (dict_keys jobs) 0%nat = idxs_at 0 jobs.
Proof.
  intros Hnd. rewrite dict_from_keys_NoDup by done.
  unfold dict_keys, idxs_at. rewrite <- list_fmap_compose.
  by apply list_fmap_ext.
Qed.

(** lines 63 to 70, with fuel for every turn *)
Lemma submit_jobs_Returned (jobs : dict (list (option job_ref)))
    (fuel : nat) (e : Engine) :
  NoDup (dict_keys jobs) -> (longest jobs <= fuel)%nat ->
  submit_jobs fuel jobs e
  = Returned (idxs_at (longest jobs) jobs, total_at (longest jobs) jobs)
             {| calls := calls e ++ (add_job <$> round_robin jobs);
                replies := replies e |}.
Proof.
  intros Hnd Hfuel. unfold submit_jobs.
  pose proof (submission_lengths jobs [] [] e Hnd) as Hl.
  rewrite app_nil_l in Hl. simpl app in Hl.
  rewrite (bind_run _ _ _ _ _ Hl).
  rewrite total_at_0, idxs_at_0 by done.
  by rewrite (submission_turns jobs (longest jobs) 0 fuel e Hnd).
Qed.

End Submission.

(** ** What round robin means *)

Section RoundRobinFacts.
Import Download.
Context {A : Type}.

(** the jobs of a turn, each with its source *)
Definition turn_tagged (jobs : dict (list A)) (r : nat) : list (string * A) :=
  omap (fun sl => (fun j => (sl.1, j)) <$> sl.2 !! r) jobs.

Definition round_robin_tagged (jobs : dict (list A)) : list (string * A) :=
  concat (turn_tagged jobs <$> seq 0 (longest jobs)).

Lemma turn_tagged_snd (jobs : dict (list A)) (r : nat) :
  (turn_tagged jobs r).*2 = turn jobs r.
Proof.
  unfold turn_tagged, turn. induction jobs as [|[s l] jobs IH]; [done|].
  cbn [omap list_omap fst snd]. destruct (l !! r); cbn [fmap option_fmap option_map]; [|done].
  rewrite fmap_cons. by f_equal.
Qed.

Lemma round_robin_tagged_snd (jobs : dict (list A)) :
  (round_robin_tagged jobs).*2 = round_robin jobs.
Proof.
  unfold round_robin_tagged, round_robin.
  induction (seq 0 (longest jobs)) as [|r rs IH]; [done|].
  rewrite !fmap_cons. cbn [concat].
  by rewrite fmap_app, turn_tagged_snd, IH.
Qed.

(** the ranks [0] to [n - 1] of one list, one after the other *)
Lemma concat_ranks {B} (f : A -> B) (l : list A) (n : nat) :
  concat ((fun r => option_list (f <$> l !! r)) <$> seq 0 n) = f <$> take n l.
Proof.
  induction n as [|n IH]; [done|].
  rewrite seq_S, fmap_app, concat_app, IH. simpl. rewrite app_nil_r.
  destruct (l !! n) as [x|] eqn:E; simpl.
  - by rewrite (take_S_r _ _ _ E), fmap_app.
  - apply lookup_ge_None in E. rewrite app_nil_r, !take_ge by lia. done.
Qed.

Lemma concat_two {B} (g h : nat -> list B) (rs : list nat) :
  concat ((fun r => g r ++ h r) <$> rs)
  ≡ₚ concat (g <$> rs) ++ concat (h <$> rs).
Proof.
  induction rs as [|r rs IH]; [done|].
  rewrite !fmap_cons. cbn [concat]. rewrite IH, <- !app_assoc.
  apply Permutation_app_head.
  rewrite !app_assoc. apply Permutation_app_tail, Permutation_app_comm.
Qed.

Lemma turn_cons (s : string) (l : list A) (jobs : dict (list A)) (r : nat) :
  turn ((s, l) :: jobs) r = option_list (id <$> l !! r) ++ turn jobs r.
Proof. unfold turn. simpl. by destruct (l !! r). Qed.

(** every job is in exactly one turn *)
Lemma turns_permutation (jobs : dict (list A)) (n : nat) :
  (longest jobs <= n)%nat ->
  concat (turn jobs <$> seq 0 n) ≡ₚ concat jobs.*2.
Proof.
  revert n. induction jobs as [|[s l] jobs IH]; intros n Hn.
  - simpl. clear. induction (seq 0 n) as [|r rs IH]; simpl; done.
  - unfold longest in Hn. rewrite fmap_cons in Hn. cbn [max_list snd] in Hn.
    pose proof (Nat.max_lub_l _ _ _ Hn) as Hl.
    pose proof (Nat.max_lub_r _ _ _ Hn) as Hr.
    erewrite list_fmap_ext; [|intros ? r ?; apply turn_cons].
    rewrite (concat_two (fun r => option_list (id <$> l !! r)) (turn jobs)).
    rewrite concat_ranks, list_fmap_id, take_ge by done.
    rewrite fmap_cons. cbn [concat snd].
    apply Permutation_app_head. by apply IH.
Qed.

Lemma turn_tagged_filter (s : string) (l : list A) (jobs : dict (list A))
    (r : nat) :
  NoDup (dict_keys jobs) -> (s, l) ∈ jobs ->
  filter (fun x => x.1 = s) (turn_tagged jobs r)
  = option_list ((fun j => (s, j)) <$> l !! r).
Proof.
  unfold turn_tagged.
  induction jobs as [|[s' l'] jobs IH]; intros Hnd Hin.
  - by apply elem_of_nil in Hin.
  - simpl in Hnd. apply NoDup_cons in Hnd as [Hs' Hnd].
    assert (Hnone : forall s0, s0 ∉ dict_keys jobs ->
              filter (fun x : string * A => x.1 = s0)
                     (omap (fun sl : string * list A =>
                              (fun j => (sl.1, j)) <$> sl.2 !! r) jobs) = []).
    { clear. intros s0. induction jobs as [|[s1 l1] jobs IH]; intros Hs0.
      - done.
      - apply not_elem_of_cons in Hs0 as [Hne Hs0]. simpl.
        destruct (l1 !! r); simpl; [|by apply IH].
        rewrite filter_cons_False by (intros Heq; simpl in Heq; by subst). by apply IH. }
    apply elem_of_cons in Hin as [[= <- <-]|Hin]; simpl.
    + destruct (l !! r) as [j|]; simpl.
      * rewrite filter_cons_True by done. by rewrite Hnone.
      * by rewrite Hnone.
    + assert (s ≠ s').
      { intros ->. apply Hs'. apply list_elem_of_fmap. by exists (s', l). }
      destruct (l' !! r) as [j|]; simpl.
      * rewrite filter_cons_False by (intros Heq; simpl in Heq; by subst). by apply IH.
      * by apply IH.
Qed.

Lemma longest_ge (s : string) (l : list A) (jobs : dict (list A)) :
  (s, l) ∈ jobs -> (length l <= longest jobs)%nat.
Proof.
  unfold longest. induction jobs as [|[s' l'] jobs IH]; intros Hin.
  - by apply elem_of_nil in Hin.
  - rewrite fmap_cons. cbn [max_list snd].
    apply elem_of_cons in Hin as [[= <- <-]|Hin]; [apply Nat.le_max_l|].
    specialize (IH Hin). etrans; [exact IH|apply Nat.le_max_r].
Qed.

(** the jobs of a source are submitted in the order of its list *)
Lemma round_robin_keeps_order (s : string) (l : list A)
    (jobs : dict (list A)) :
  NoDup (dict_keys jobs) -> (s, l) ∈ jobs ->
  (filter (fun x => x.1 = s) (round_robin_tagged jobs)).*2 = l.
Proof.
  intros Hnd Hin. unfold round_robin_tagged.
  assert (Hf : filter (fun x : string * A => x.1 = s)
                 (concat (turn_tagged jobs <$> seq 0 (longest jobs)))
               = concat ((fun r => option_list ((fun j => (s, j)) <$> l !! r))
                           <$> seq 0 (longest jobs))).
  { induction (seq 0 (longest jobs)) as [|r rs IH]; [done|].
    rewrite !fmap_cons. cbn [concat].
    by rewrite filter_app, IH, (turn_tagged_filter s l). }
  rewrite Hf, concat_ranks, <- list_fmap_compose.
  rewrite take_ge by (by eapply longest_ge).
  apply list_fmap_id.
Qed.

End RoundRobinFacts.

(** C3. For every dictionary of job lists, the submission loop of
    [download_to] comes to its end (some number of iterations is enough, and
    any larger one too) having called [add_job] on the jobs in round-robin
    order, and on nothing else: turn after turn, one job of each source that
    still has one, the sources in the order of the dictionary; every job is
    submitted exactly once, and the jobs of a source in the order of its
    list. *)
Theorem submission_loop_is_round_robin
    (jobs : Download.dict (list (option job_ref))) (fuel : nat)
    (e : Download.Engine) :
  NoDup (Download.dict_keys jobs) ->
  (longest jobs <= fuel)%nat ->
  (exists st,
      Download.submit_jobs fuel jobs e
      = Returned st
          {| Download.calls :=
               Download.calls e ++ (add_job <$> round_robin jobs);
             Download.replies := Download.replies e |}) /\
  round_robin jobs ≡ₚ concat jobs.*2 /\
  (round_robin_tagged jobs).*2 = round_robin jobs /\
  forall source l,
    (source, l) ∈ jobs ->
    (filter (fun x => x.1 = source) (round_robin_tagged jobs)).*2 = l.
Proof.
  intros Hnd Hfuel. split; [|split; [|split]].
  - eexists. by apply submit_jobs_Returned.
  - by apply turns_permutation.
  - apply round_robin_tagged_snd.
  - intros source l Hin. by apply round_robin_keeps_order.
Qed.

(** two sources, three jobs and one *)
Definition jobs_example : Download.dict (list (option job_ref)) :=
  [("ncbi", [Some 0; Some 1; Some 2]%nat); ("sra", [Some 3%nat])].

Definition engine_example : Download.Engine :=
  {| Download.calls := [start]; Download.replies := fun _ => 0%nat |}.

Lemma submission_loop_is_round_robin_witness :
  (exists st,
      Download.submit_jobs 3 jobs_example engine_example
      = Returned st
          {| Download.calls :=
               [start] ++ (add_job <$> round_robin jobs_example);
             Download.replies := fun _ => 0%nat |}) /\
  round_robin jobs_example ≡ₚ concat jobs_example.*2 /\
  (round_robin_tagged jobs_example).*2 = round_robin jobs_example /\
  forall source l,
    (source, l) ∈ jobs_example ->
    (filter (fun x => x.1 = source) (round_robin_tagged jobs_example)).*2 = l.
Proof.
  apply (submission_loop_is_round_robin jobs_example 3 engine_example).
  - apply (bool_decide_unpack _). vm_compute. exact I.
  - vm_compute. lia.
Defined.

Example round_robin_example :
  round_robin jobs_example = [Some 0; Some 3; Some 1; Some 2]%nat.
Proof. reflexivity. Qed.

(** ** The life of the [JobManager] *)

Section Lifecycle.
Import Download.

(** only calls of [add_job] were made *)
Definition adds_only (e e' : Engine) : Prop :=
  exists js, calls e' = calls e ++ (add_job <$> js) /\ replies e' = replies e.

Lemma adds_only_refl e : adds_only e e.
Proof. exists []. by rewrite app_nil_r. Qed.

Lemma adds_only_trans e1 e2 e3 :
  adds_only e1 e2 -> adds_only e2 e3 -> adds_only e1 e3.
Proof.
  intros (js1 & Hc1 & Hr1) (js2 & Hc2 & Hr2). exists (js1 ++ js2).
  rewrite Hc2, Hc1, Hr2, Hr1, fmap_app, app_assoc. done.
Qed.

Lemma subscript_final {V} (d : dict V) (k : string) (e : Engine) :
  final_state (subscript d k e) = e.
Proof. unfold subscript. by destruct (dict_get d k). Qed.

Lemma submission_step_adds jobs st source e :
  adds_only e (final_state (submission_step jobs st source e)).
Proof.
  unfold submission_step. destruct st as [idxs total_jobs].
  unfold bind, subscript.
  destruct (dict_get idxs source) as [i|]; simpl; [|apply adds_only_refl].
  destruct (dict_get jobs source) as [l|]; simpl; [|apply adds_only_refl].
  destruct (i <? length l)%nat; simpl; [|apply adds_only_refl].
  unfold item. destruct (l !! i) as [j|]; simpl; [|apply adds_only_refl].
  by exists [j].
Qed.

Lemma submit_jobs_adds fuel jobs e :
  adds_only e (final_state (submit_jobs fuel jobs e)).
Proof.
  unfold submit_jobs.
  apply (bind_final adds_only adds_only_trans).
  - apply (for_each_final adds_only adds_only_refl adds_only_trans).
    intros lens source s.
    apply (bind_final adds_only adds_only_trans).
    + rewrite subscript_final. apply adds_only_refl.
    + intros; apply adds_only_refl.
  - intros lens e'.
    apply (while_final adds_only adds_only_refl adds_only_trans).
    + intros; apply adds_only_refl.
    + intros st s. unfold submission_round.
      apply (for_each_final adds_only adds_only_refl adds_only_trans).
      intros; apply submission_step_adds.
Qed.

(** what is done while there are jobs left: a nap, or a poll that found
    some *)
Definition waiting (a : Action) : Prop :=
  a = sleep 1 \/ exists n, a = remaining_jobs (Datatypes.S n).

(** lines 73 and 74 *)
Lemma wait_loop (fuel : nat) : forall e,
  match while fuel
          (fun _ => let* n := manager_remaining_jobs in ret (0 <? n)%nat)
          (fun _ => call (sleep 1)) tt e with
  | Returned _ e' =>
      exists polls, Forall waiting polls /\
                    calls e' = calls e ++ polls ++ [remaining_jobs 0]
  | Unfinished e' =>
      exists polls, Forall waiting polls /\ calls e' = calls e ++ polls
  | Raised _ _ => False
  end.
Proof.
  induction fuel as [|fuel IH]; intros e; simpl;
    unfold bind, manager_remaining_jobs, ret; simpl;
    destruct (replies e 0) as [|n] eqn:E; simpl.
  - by exists [].
  - exists [remaining_jobs (Datatypes.S n)]. split; [|done].
    apply Forall_singleton. right. by eexists.
  - by exists [].
  - specialize (IH {| calls := (calls e ++ [remaining_jobs (Datatypes.S n)])
                                 ++ [sleep 1];
                      replies := fun k => replies e (Datatypes.S k) |}).
    unfold bind, manager_remaining_jobs, ret, call in IH. simpl in IH.
    destruct (while fuel _ _ tt _) as [? e'|? e'|e']; [| done |].
    + destruct IH as (polls & Hw & Hc).
      exists (remaining_jobs (Datatypes.S n) :: sleep 1 :: polls). split.
      * apply Forall_cons. split; [right; by eexists|].
        apply Forall_cons. split; [by left|done].
      * rewrite Hc, <- !app_assoc. done.
    + destruct IH as (polls & Hw & Hc).
      exists (remaining_jobs (Datatypes.S n) :: sleep 1 :: polls). split.
      * apply Forall_cons. split; [right; by eexists|].
        apply Forall_cons. split; [by left|done].
      * rewrite Hc, <- !app_assoc. done.
Qed.

End Lifecycle.

Section LifecycleOrder.
Import Download.

(** the shape of what is done with the [JobManager]: it is built and started,
    jobs are added, then comes the waiting, and, only after a poll that found
    no job left, [stop] and [join] *)
Definition lifecycle_shape (max_process : nat) (logdir : option string)
    (t : list Action) : Prop :=
  exists js polls tail,
    t = [JobManager_new max_process logdir; start] ++ (add_job <$> js)
          ++ polls ++ tail /\
    Forall waiting polls /\
    (tail = [] \/ tail = [remaining_jobs 0; stop; join]).

(** the order of the calls *)
Definition lifecycle_order (t : list Action) : Prop :=
  (forall i j, t !! i = Some (add_job j) ->
     exists k, (k < i)%nat /\ t !! k = Some start) /\
  (forall i n, t !! i = Some (remaining_jobs n) ->
     (exists k, (k < i)%nat /\ t !! k = Some start) /\
     forall k j, t !! k = Some (add_job j) -> (k < i)%nat) /\
  (forall i, t !! i = Some stop ->
     exists k, (k < i)%nat /\ t !! k = Some (remaining_jobs 0)) /\
  (forall i, t !! i = Some join ->
     exists k, (k < i)%nat /\ t !! k = Some stop).

Lemma run_jobs_unfold fuel max_process logdir jobs answers :
  run_jobs fuel max_process logdir jobs {| calls := []; replies := answers |}
  = match submit_jobs fuel jobs
            {| calls := [JobManager_new max_process logdir; start];
               replies := answers |} with
    | Returned _ e1 =>
        match while fuel
                (fun _ => let* n := manager_remaining_jobs in ret (0 <? n)%nat)
                (fun _ => call (sleep 1)) tt e1 with
        | Returned _ e2 =>
            Returned tt {| calls := (calls e2 ++ [stop]) ++ [join];
                           replies := replies e2 |}
        | Raised x e2 => Raised x e2
        | Unfinished e2 => Unfinished e2
        end
    | Raised x e1 => Raised x e1
    | Unfinished e1 => Unfinished e1
    end.
Proof. reflexivity. Qed.

Lemma run_jobs_shape fuel max_process logdir jobs answers :
  forall r,
    r = run_jobs fuel max_process logdir jobs
          {| calls := []; replies := answers |} ->
    lifecycle_shape max_process logdir (calls (final_state r)) /\
    match r with
    | Returned _ _ =>
        exists t, calls (final_state r) = t ++ [remaining_jobs 0; stop; join]
    | _ => True
    end.
Proof.
  intros r ->. rewrite run_jobs_unfold. unfold lifecycle_shape.
  pose proof (submit_jobs_adds fuel jobs
                {| calls := [JobManager_new max_process logdir; start];
                   replies := answers |}) as (js & Hc & Hr).
  destruct (submit_jobs fuel jobs
              {| calls := [JobManager_new max_process logdir; start];
                 replies := answers |}) as [st e1|x e1|e1];
    cbn [final_state calls replies] in Hc, Hr.
  - pose proof (wait_loop fuel e1) as Hw.
    destruct (while fuel
                (fun _ => let* n := manager_remaining_jobs in ret (0 <? n)%nat)
                (fun _ => call (sleep 1)) tt e1) as [? e2|? e2|e2];
      [| done |]; destruct Hw as (polls & Hw & Hc2);
      cbn [final_state calls]; rewrite Hc2, Hc.
    + split.
      * exists js, polls, [remaining_jobs 0; stop; join].
        split; [|split; [done|by right]].
        by rewrite <- !app_assoc.
      * exists ([JobManager_new max_process logdir; start]
                  ++ (add_job <$> js) ++ polls).
        by rewrite <- !app_assoc.
    + split; [|done].
      exists js, polls, []. split; [|split; [done|by left]].
      by rewrite app_nil_r, <- !app_assoc.
  - cbn [final_state]. rewrite Hc. split; [|done].
    exists js, [], []. split; [|split; [done|by left]]. by rewrite !app_nil_r.
  - cbn [final_state]. rewrite Hc. split; [|done].
    exists js, [], []. split; [|split; [done|by left]]. by rewrite !app_nil_r.
Qed.

Lemma shape_lookup (max_process : nat) (logdir : option string)
    (js : list (option job_ref)) (polls tail : list Action) (i : nat)
    (x : Action) :
  Forall waiting polls ->
  ([JobManager_new max_process logdir; start] ++ (add_job <$> js)
     ++ polls ++ tail) !! i = Some x ->
  let a := length js in
  let p := length polls in
  (i = 0%nat /\ x = JobManager_new max_process logdir) \/
  (i = 1%nat /\ x = start) \/
  ((2 <= i < 2 + a)%nat /\ exists j, x = add_job j) \/
  ((2 + a <= i < 2 + a + p)%nat /\ waiting x) \/
  ((2 + a + p <= i)%nat /\ tail !! (i - (2 + a + p))%nat = Some x).
Proof.
  intros Hw Hi. cbv zeta.
  destruct i as [|[|i]]; simpl in Hi.
  - left. split; [done|congruence].
  - right; left. split; [done|congruence].
  - right; right.
    apply lookup_app_Some in Hi as [Hi|[Hge Hi]].
    + left. pose proof (lookup_lt_Some _ _ _ Hi) as Hlt.
      rewrite length_fmap in Hlt. split; [lia|].
      apply list_lookup_fmap_Some in Hi as (j & -> & _). by exists j.
    + right. rewrite length_fmap in Hge, Hi.
      apply lookup_app_Some in Hi as [Hi|[Hge' Hi]].
      * left. pose proof (lookup_lt_Some _ _ _ Hi) as Hlt. split; [lia|].
        rewrite Forall_forall in Hw. apply Hw.
        by eapply list_elem_of_lookup_2.
      * right. split; [lia|]. rewrite <- Hi. f_equal. lia.
Qed.

Lemma shape_order (max_process : nat) (logdir : option string)
    (t : list Action) :
  lifecycle_shape max_process logdir t -> lifecycle_order t.
Proof.
  intros (js & polls & tail & -> & Hw & Htail).
  set (t := [JobManager_new max_process logdir; start] ++ (add_job <$> js)
              ++ polls ++ tail).
  assert (Hstart : t !! 1%nat = Some start) by done.
  assert (Hcases : forall i x, t !! i = Some x ->
            (i = 0%nat /\ x = JobManager_new max_process logdir) \/
            (i = 1%nat /\ x = start) \/
            ((2 <= i < 2 + length js)%nat /\ exists j, x = add_job j) \/
            ((2 + length js <= i < 2 + length js + length polls)%nat
             /\ waiting x) \/
            ((2 + length js + length polls <= i)%nat /\
             tail !! (i - (2 + length js + length polls))%nat = Some x))
    by (intros i x; by apply shape_lookup).
  assert (Htl : forall k x, tail !! k = Some x ->
            t !! (2 + length js + length polls + k)%nat = Some x).
  { intros k x Hk. unfold t.
    rewrite lookup_app_r by (simpl; lia).
    rewrite lookup_app_r by (rewrite length_fmap; simpl; lia).
    rewrite lookup_app_r by (rewrite length_fmap; simpl; lia).
    rewrite <- Hk. f_equal. rewrite length_fmap. simpl. lia. }
  assert (Hnw : forall x, waiting x ->
            x ≠ stop /\ x ≠ join /\ x ≠ remaining_jobs 0 /\
            forall j, x ≠ add_job j).
  { intros x [->|[n ->]]; by repeat split. }
  repeat split.
  - intros i j Hi. exists 1%nat. split; [|done].
    destruct (Hcases _ _ Hi) as [[_ ?]|[[_ ?]|[[? _]|[[_ Hx]|[_ Hx]]]]];
      try done; try lia.
    + by destruct (Hnw _ Hx) as (_ & _ & _ & Hn); destruct (Hn j).
    + destruct Htail as [->| ->]; [done|].
      by destruct (i - _)%nat as [|[|[|?]]].
  - exists 1%nat. split; [|done].
    destruct (Hcases _ _ H) as [[_ ?]|[[_ ?]|[[? [j ?]]|[[? _]|[? _]]]]];
      try done; lia.
  - intros k j Hk.
    destruct (Hcases _ _ Hk) as [[_ ?]|[[_ ?]|[[Hkr _]|[[_ Hx]|[_ Hx]]]]];
      try done.
    + destruct (Hcases _ _ H) as [[_ ?]|[[_ ?]|[[? [j' ?]]|[[? _]|[? _]]]]];
        try done; lia.
    + by destruct (Hnw _ Hx) as (_ & _ & _ & Hn); destruct (Hn j).
    + destruct Htail as [->| ->]; [done|].
      by destruct (k - _)%nat as [|[|[|?]]].
  - intros i Hi.
    destruct (Hcases _ _ Hi) as [[_ ?]|[[_ ?]|[[? [j ?]]|[[_ Hx]|[Hge Hx]]]]];
      try done.
    + by destruct (Hnw _ Hx) as (Hn & _).
    + destruct Htail as [->| ->]; [done|].
      destruct (i - _)%nat as [|[|[|?]]] eqn:E; try done.
      exists (2 + length js + length polls + 0)%nat. split; [lia|].
      by apply Htl.
  - intros i Hi.
    destruct (Hcases _ _ Hi) as [[_ ?]|[[_ ?]|[[? [j ?]]|[[_ Hx]|[Hge Hx]]]]];
      try done.
    + by destruct (Hnw _ Hx) as (_ & Hn & _).
    + destruct Htail as [->| ->]; [done|].
      destruct (i - _)%nat as [|[|[|?]]] eqn:E; try done.
      exists (2 + length js + length polls + 1)%nat. split; [lia|].
      by apply Htl.
Qed.

End LifecycleOrder.

Lemma lifecycle_order_nil : lifecycle_order [].
Proof.
  unfold lifecycle_order.
  split; [|split; [|split]]; intros i; intros; by rewrite lookup_nil in *.
Qed.

(** C5. In every execution of [download_to], whatever the sources, the
    replies of [remaining_jobs()] and the bound on the iterations, and whether
    it returns, raises or is cut short, the calls on the [JobManager] come in
    this order: it is built and started, then the jobs are added, then
    [remaining_jobs()] is polled; [stop()] comes only after a poll that
    returned 0, and [join()] only after [stop()]. An execution that returns
    ends with such a poll, [stop()] and [join()]. *)
Theorem download_to_lifecycle_order
    (resolve : string -> FS.loc) (acc_by_src : Download.dict (list string))
    (src_manager_get : string -> M World Download.Manipulator)
    (fuel : nat) (answers : nat -> nat)
    (datadir : string) (logdir : option string) (max_process : nat)
    (w : World) :
  let r := Download.download_to resolve acc_by_src src_manager_get fuel
             answers datadir logdir max_process w in
  (r.2 = [] \/ lifecycle_shape max_process logdir r.2) /\
  lifecycle_order r.2 /\
  match r.1 with
  | Returned _ _ => exists t, r.2 = t ++ [remaining_jobs 0; stop; join]
  | _ => True
  end.
Proof.
  cbv zeta. unfold Download.download_to.
  remember ((Download.prepare_directories resolve datadir logdir ;;
             Download.create_jobs acc_by_src src_manager_get datadir) w)
    as p eqn:Hp. clear Hp.
  destruct p as [jobs w'|x w'|w'].
  - pose proof (run_jobs_shape fuel max_process logdir jobs answers _ eq_refl)
      as [Hshape Hret].
    destruct (Download.run_jobs fuel max_process logdir jobs
                {| Download.calls := []; Download.replies := answers |})
      as [[] e|x e|e]; cbn [fst snd final_state] in *.
    + split; [by right|]. split; [exact (shape_order _ _ _ Hshape)|].
      exact Hret.
    + split; [by right|]. split; [exact (shape_order _ _ _ Hshape)|exact I].
    + split; [by right|]. split; [exact (shape_order _ _ _ Hshape)|exact I].
  - split; [by left|]. split; [exact lifecycle_order_nil|exact I].
  - split; [by left|]. split; [exact lifecycle_order_nil|exact I].
Qed.

Example download_to_example :
  (Download.download_to resolve_example
     [("sra", ["SRR1"; "ERR3"]); ("ncbi", ["GCA_1"])]
     (fun source =>
        if String.eqb source "ncbi"
        then ret (Download.NCBI_manipulator resolve_example ncbi_example)
        else ret (Download.SRA_manipulator resolve_example sra_example))
     6 (fun k => (2 - k)%nat) "data" (Some "logs") 8 world_example).2
  = [JobManager_new 8 (Some "logs"); start;
     add_job (Some 0%nat); add_job (Some 5%nat);
     add_job (Some 1%nat); add_job (Some 6%nat);
     add_job (Some 2%nat); add_job (Some 7%nat);
     add_job (Some 3%nat); add_job (Some 8%nat);
     add_job None; add_job (Some 4%nat);
     remaining_jobs 2; sleep 1; remaining_jobs 1; sleep 1;
     remaining_jobs 0; stop; join].
Proof. vm_compute. reflexivity. Qed.

(** * Further properties *)

(** ** [check_binary]: what it lets through *)

(** [check_binary] raises exactly the exceptions of the spawn other than
    [FileNotFoundError], and returns [False] exactly when the spawn raises
    [FileNotFoundError] or the process ends with a return code other than 0. *)
Theorem check_binary_raises_and_false
    (subprocess_run : list string -> Exn + Z) (path_to_bin : string) :
  let argv := Py.split " " (path_to_bin +:+ " --version") in
  (forall e, Download.check_binary subprocess_run path_to_bin = inl e <->
             subprocess_run argv = inl e /\ e ≠ FileNotFoundError) /\
  (Download.check_binary subprocess_run path_to_bin = inr false <->
   subprocess_run argv = inl FileNotFoundError \/
   exists returncode, subprocess_run argv = inr returncode /\ returncode ≠ 0%Z).
Proof.
  cbv zeta. unfold Download.check_binary.
  destruct (subprocess_run _) as [e'|rc]; split.
  - intros e. destruct e'; split;
      try (by intros [= <-]); try (by intros [[= <-] ?]); done.
  - destruct e'; split; try done; try (by left);
      try (by intros [?|(? & ? & ?)]).
  - intros e. split; [done|by intros [? _]].
  - split.
    + intros [= H%Z.eqb_neq]. right. by exists rc.
    + intros [?|(rc' & [= <-] & Hne)]; [done|].
      f_equal. by apply Z.eqb_neq.
Qed.

(** ** The gates: two answers in a row *)

(** a gate together with the object it is bound to, as it is handed over as
    [can_start] *)
Inductive BoundGate : Type :=
  | ncbi_gate (self : NCBI.t)
  | sra_gate (self : SRA.t).

(** calling it *)
Definition gate_call (g : BoundGate) (clock : Clock)
  : bool * BoundGate * Clock :=
  match g with
  | ncbi_gate self =>
      let '(ready, self', clock') := NCBI.ncbi_delay_ready self clock in
      (ready, ncbi_gate self', clock')
  | sra_gate self =>
      let '(ready, self', clock') := SRA.sra_delay_ready self clock in
      (ready, sra_gate self', clock')
  end.

Definition gate_mutex (g : BoundGate) : Lock.t :=
  match g with
  | ncbi_gate self => NCBI.mutex self
  | sra_gate self => SRA.mutex self
  end.

Definition gate_min_delay (g : BoundGate) : float :=
  match g with
  | ncbi_gate _ => 1%float
  | sra_gate self => SRA.min_delay self
  end.

Definition gate_last_query (g : BoundGate) : float :=
  match g with
  | ncbi_gate self => NCBI.last_ncbi_query self
  | sra_gate self => SRA.last_sra_query self
  end.

(** When a gate answers true and, at its next call, answers true again, the
    second call has read the clock more than the gate's minimum interval past
    the reading stored by the first; the readings stored are the second and
    the fourth of the clock. *)
Theorem gate_true_answers_are_spaced
    (g g1 g2 : BoundGate) (clock c1 c2 : Clock) :
  gate_mutex g = false ->
  gate_call g clock = (true, g1, c1) ->
  gate_call g1 c1 = (true, g2, c2) ->
  gate_last_query g1 = clock 1%nat /\
  (gate_min_delay g <? clock 2%nat - clock 1%nat)%float = true /\
  gate_last_query g2 = clock 3%nat.
Proof.
  intros Hm H1 H2. destruct g as [self|self]; simpl in *.
  - rewrite (ncbi_gate_acquired _ _ Hm) in H1.
    destruct (1 <? _)%float; [|done]. inversion H1; subst; clear H1.
    simpl in H2. rewrite ncbi_gate_acquired in H2 by (by destruct self).
    destruct (1 <? _)%float eqn:E; [|done]. inversion H2; subst; clear H2.
    by destruct self.
  - rewrite (sra_gate_acquired _ _ Hm) in H1.
    destruct (_ <? _)%float; [|done]. inversion H1; subst; clear H1.
    simpl in H2. rewrite sra_gate_acquired in H2 by (by destruct self).
    destruct (_ <? _)%float eqn:E; [|done]. inversion H2; subst; clear H2.
    by destruct self.
Qed.

(** a clock that gives 5, 7, 9, 11 *)
Definition clock_by_two : Clock := clock_of [5; 7; 9; 11]%float.

(** readings three quarters of a second apart: enough for SRA, not for
    NCBI *)
Definition clock_by_quarters : Clock := clock_of [5; 6; 6.75; 8]%float.

Lemma gate_true_answers_are_spaced_witness :
  (exists g1 c1 g2 c2,
      gate_call (ncbi_gate ncbi_example) clock_by_two = (true, g1, c1) /\
      gate_call g1 c1 = (true, g2, c2) /\
      gate_last_query g1 = 7%float /\
      (1 <? clock_by_two 2%nat - clock_by_two 1%nat)%float = true /\
      gate_last_query g2 = 11%float) /\
  (exists g1 c1 g2 c2,
      gate_call (sra_gate sra_example) clock_by_quarters = (true, g1, c1) /\
      gate_call g1 c1 = (true, g2, c2) /\
      gate_last_query g1 = 6%float /\
      (0.5 <? clock_by_quarters 2%nat - clock_by_quarters 1%nat)%float
      = true /\
      gate_last_query g2 = 8%float).
Proof.
  split.
  - eexists _, _, _, _. split; [vm_compute; reflexivity|].
    split; [vm_compute; reflexivity|].
    eapply (gate_true_answers_are_spaced (ncbi_gate ncbi_example) _ _
              clock_by_two); vm_compute; reflexivity.
  - eexists _, _, _, _. split; [vm_compute; reflexivity|].
    split; [vm_compute; reflexivity|].
    eapply (gate_true_answers_are_spaced (sra_gate sra_example) _ _
              clock_by_quarters); vm_compute; reflexivity.
Defined.

(** on the same readings the NCBI gate, whose interval is 1, answers false
    the second time *)
Example ncbi_gate_waits_a_second :
  (gate_call (ncbi_gate (NCBI.set_last_ncbi_query 6 ncbi_example))
     (clock_of [6.75]%float)).1.1 = false.
Proof. reflexivity. Qed.

(** ** [download_to]: a log directory that cannot be made *)

Section LogDirectoryErrors.

Variable resolve : string -> FS.loc.
Variable acc_by_src : Download.dict (list string).
Variable src_manager_get : string -> M World Download.Manipulator.

Lemma download_to_prepare_Raised fuel answers datadir logdir max_process w e w' :
  Download.prepare_directories resolve datadir logdir w = Raised e w' ->
  Download.download_to resolve acc_by_src src_manager_get fuel answers
    datadir logdir max_process w = (Raised e w', []).
Proof.
  intros H. unfold Download.download_to, bind at 1. by rewrite H.
Qed.

(** Called with [logdir=None], [download_to] makes the data directory and
    then raises [TypeError] from [makedirs(None)]: no source is asked for
    jobs and no [JobManager] is built. *)
Theorem download_to_without_logdir_raises
    (fuel : nat) (answers : nat -> nat) (datadir : string)
    (max_process : nat) (w : World) (m : FS.t) :
  FS.makedirs true (resolve datadir) (fs w) = inr m ->
  Download.download_to resolve acc_by_src src_manager_get fuel answers
    datadir None max_process w
  = (Raised TypeError (set_fs m w), []).
Proof.
  intros H. apply download_to_prepare_Raised.
  unfold Download.prepare_directories, bind, makedirs, fs_update, ret, raise.
  by rewrite H.
Qed.

(** When the log path is a regular file, [download_to] raises
    [NotADirectoryError] from [rmtree] after the data directory is made: the
    file is left in place and no [JobManager] is built. *)
Theorem download_to_logdir_is_file_raises
    (fuel : nat) (answers : nat -> nat) (datadir logdir : string)
    (max_process : nat) (w : World) (m : FS.t) :
  FS.makedirs true (resolve datadir) (fs w) = inr m ->
  fs w !! resolve logdir = Some FS.File ->
  Download.download_to resolve acc_by_src src_manager_get fuel answers
    datadir (Some logdir) max_process w
  = (Raised NotADirectoryError (set_fs m w), []) /\
  m !! resolve logdir = Some FS.File.
Proof.
  intros H Hf.
  pose proof (makedirs_inr _ _ _ _ H) as (_ & Hkeep & _).
  pose proof (Hkeep _ _ Hf) as Hf'. split; [|done].
  apply download_to_prepare_Raised.
  unfold Download.prepare_directories, bind, makedirs, rmtree, path_exists,
    fs_update, ret, raise, FS.exists_, FS.rmtree.
  rewrite H. simpl. rewrite Hf'. cbn [fs set_fs]. by rewrite Hf'.
Qed.

End LogDirectoryErrors.

Lemma download_to_without_logdir_raises_witness :
  exists m,
    Download.download_to resolve_example [("sra", ["SRR1"])] source_example
      3 (fun _ => 0%nat) "data" None 8 world_with_logs
    = (Raised TypeError (set_fs m world_with_logs), []).
Proof.
  eexists.
  apply (download_to_without_logdir_raises resolve_example
           [("sra", ["SRR1"])] source_example 3 (fun _ => 0%nat) "data" 8
           world_with_logs).
  vm_compute. reflexivity.
Defined.

Lemma download_to_logdir_is_file_raises_witness :
  exists m,
    Download.download_to resolve_example [("sra", ["SRR1"])] source_example
      3 (fun _ => 0%nat) "data" (Some "logs/old.log") 8 world_with_logs
    = (Raised NotADirectoryError (set_fs m world_with_logs), []) /\
    m !! resolve_example "logs/old.log" = Some FS.File.
Proof.
  eexists.
  apply (download_to_logdir_is_file_raises resolve_example
           [("sra", ["SRR1"])] source_example 3 (fun _ => 0%nat)
           "data" "logs/old.log" 8 world_with_logs).
  - vm_compute. reflexivity.
  - vm_compute. reflexivity.
Defined.

(** ** [download_to]: the jobs of the sources *)

Section DictMore.
Import Download.
Context {V : Type}.

Lemma dict_keys_set_in (d : dict V) (k : string) (v : V) :
  k ∈ dict_keys d -> dict_keys (dict_set d k v) = dict_keys d.
Proof.
  induction d as [|[k' v'] d IH]; simpl; intros Hk.
  - by apply elem_of_nil in Hk.
  - destruct (String.eqb k' k) eqn:E; [done|]. simpl. f_equal.
    apply IH. apply elem_of_cons in Hk as [->|Hk]; [|done].
    by rewrite String.eqb_refl in E.
Qed.

Lemma dict_get_set_ne (d : dict V) (k k' : string) (v : V) :
  k ≠ k' -> dict_get (dict_set d k v) k' = dict_get d k'.
Proof.
  intros Hne. induction d as [|[k0 v0] d IH]; simpl.
  - destruct (String.eqb k k') eqn:E; [|done].
    apply String.eqb_eq in E. congruence.
  - destruct (String.eqb k0 k) eqn:E; simpl.
    + apply String.eqb_eq in E. subst k0.
      destruct (String.eqb k k') eqn:E'; [|done].
      apply String.eqb_eq in E'. congruence.
    + by rewrite IH.
Qed.

Lemma dict_get_const (keys : list string) (k : string) (v : V) :
  k ∈ keys -> dict_get ((fun k => (k, v)) <$> keys) k = Some v.
Proof.
  induction keys as [|k0 keys IH]; intros Hk.
  - by apply elem_of_nil in Hk.
  - simpl. destruct (String.eqb k0 k) eqn:E; [done|].
    apply IH. apply elem_of_cons in Hk as [->|Hk]; [|done].
    by rewrite String.eqb_refl in E.
Qed.

Lemma dict_get_Some_key (d : dict V) (k : string) (v : V) :
  dict_get d k = Some v -> k ∈ dict_keys d.
Proof.
  induction d as [|[k0 v0] d IH]; simpl; [done|].
  destruct (String.eqb k0 k) eqn:E.
  - apply String.eqb_eq in E. subst. intros _. by left.
  - intros H. right. by apply IH.
Qed.

End DictMore.

Section CreateJobs.
Import Download.

Variable acc_by_src : dict (list string).
Variable src_manager_get : string -> M World Manipulator.

Lemma create_jobs_Returned
    (datadir : string) (w : World) (jobs : dict (list (option job_ref)))
    (w' : World) :
  NoDup (dict_keys acc_by_src) ->
  create_jobs acc_by_src src_manager_get datadir w = Returned jobs w' ->
  dict_keys jobs = dict_keys acc_by_src /\
  forall source,
    dict_get acc_by_src source = Some [] -> dict_get jobs source = Some [].
Proof.
  intros Hnd H. unfold create_jobs in H.
  apply (for_each_Returned
           (fun (_ : list string) jobs (_ : World) =>
              dict_keys jobs = dict_keys acc_by_src /\
              forall source,
                dict_get acc_by_src source = Some [] ->
                dict_get jobs source = Some [])) in H; [done| |].
  - rewrite dict_from_keys_NoDup by done. split.
    + unfold dict_keys. rewrite <- list_fmap_compose. apply list_fmap_id.
    + intros source Hs. apply dict_get_const.
      by eapply dict_get_Some_key.
  - clear H. intros seen source jobs1 s1 jobs2 s2 [rest Hrest] [Hk He] Hb.
    apply bind_Returned in Hb as (reg & s & Hm & Hb).
    unfold subscript in Hm.
    destruct (dict_get acc_by_src source) as [reg'|] eqn:Hreg; [|done].
    apply ret_Returned in Hm as [Hr ->]. subst reg'.
    apply bind_Returned in Hb as (manipulator & s & _ & Hb).
    destruct (0 <? length reg)%nat eqn:Hlen;
      [|by apply ret_Returned in Hb as [-> ->]].
    apply bind_Returned in Hb as (ready & s0 & _ & Hb).
    destruct ready.
    + apply bind_Returned in Hb as (js & s3 & _ & Hb).
      apply bind_Returned in Hb as (? & s4 & _ & Hb).
      apply ret_Returned in Hb as [-> ->]. split.
      * rewrite dict_keys_set_in; [done|]. rewrite Hk, Hrest.
        apply elem_of_app. right. by left.
      * intros source' Hs'. rewrite dict_get_set_ne; [by apply He|].
        intros <-. rewrite Hreg in Hs'. inversion Hs'; subst. done.
    + apply bind_Returned in Hb as (? & s4 & _ & Hb).
      by apply ret_Returned in Hb as [-> ->].
Qed.


(** The dictionary of jobs [download_to] builds has the sources of the
    register as keys, in the same order, and a source that has no accession
    has no job. *)
Theorem create_jobs_keeps_sources
    (datadir : string) (w : World) (jobs : dict (list (option job_ref)))
    (w' : World) :
  NoDup (dict_keys acc_by_src) ->
  create_jobs acc_by_src src_manager_get datadir w = Returned jobs w' ->
  dict_keys jobs = dict_keys acc_by_src /\
  forall source,
    dict_get acc_by_src source = Some [] -> dict_get jobs source = Some [].
Proof. apply create_jobs_Returned. Qed.

End CreateJobs.

Definition register_example : Download.dict (list string) :=
  [("sra", ["SRR1"; "ERR3"]); ("ena", []); ("ncbi", ["GCA_1"])].

Definition sources_example (source : string) : M World Download.Manipulator :=
  if String.eqb source "ncbi"
  then ret (Download.NCBI_manipulator resolve_example ncbi_example)
  else ret (Download.SRA_manipulator resolve_example sra_example).

Lemma create_jobs_keeps_sources_witness :
  exists jobs w',
    Download.create_jobs register_example sources_example "data" world_example
      = Returned jobs w' /\
    Download.dict_keys jobs = ["sra"; "ena"; "ncbi"] /\
    forall source,
      Download.dict_get register_example source = Some [] ->
      Download.dict_get jobs source = Some [].
Proof.
  eexists _, _. split; [vm_compute; reflexivity|].
  eapply (create_jobs_keeps_sources register_example sources_example "data"
            world_example).
  - apply (bool_decide_unpack _). vm_compute. exact I.
  - vm_compute. reflexivity.
Defined.

Section NotReady.
Import Download.

Variable resolve : string -> FS.loc.
Variable src_manager_get : string -> M World Manipulator.

(** A source that has accessions and whose downloader is not ready is not
    skipped: the warning is given the keyword [file], which the logger does
    not take, so that with warnings enabled [download_to] raises [TypeError]
    before any [JobManager] is built. *)
Theorem download_to_source_not_ready_raises
    (source : string) (reg : list string) (rest : dict (list string))
    (manipulator : Manipulator)
    (fuel : nat) (answers : nat -> nat)
    (datadir : string) (logdir : option string) (max_process : nat)
    (w w0 w1 w2 : World) :
  reg ≠ [] ->
  prepare_directories resolve datadir logdir w = Returned tt w0 ->
  src_manager_get source w0 = Returned manipulator w1 ->
  is_ready manipulator w1 = Returned false w2 ->
  (logger_level w2 <= WARNING)%nat ->
  download_to resolve ((source, reg) :: rest) src_manager_get fuel answers
    datadir logdir max_process w
  = (Raised TypeError w2, []).
Proof.
  intros Hreg Hprep Hget Hready Hlevel.
  unfold download_to. rewrite (bind_run _ _ _ _ _ Hprep).
  unfold create_jobs. cbn [dict_keys fmap list_fmap fst for_each].
  unfold bind at 1. unfold bind at 1, subscript at 1.
  rewrite dict_get_head. unfold ret at 1.
  rewrite (bind_run _ _ _ _ _ Hget).
  assert ((0 <? length reg)%nat = true) as ->.
  { apply Nat.ltb_lt. destruct reg; [done|simpl; lia]. }
  rewrite (bind_run _ _ _ _ _ Hready).
  unfold bind at 1, logger_warning_file at 1.
  assert ((logger_level w2 <=? WARNING)%nat = true) as ->
      by (by apply Nat.leb_le).
  done.
Qed.

End NotReady.

(** the toolkit could not be installed *)
Definition sra_not_ready : SRA.t := SRA.init "/tmp" "bin" None.

Lemma download_to_source_not_ready_raises_witness :
  exists w2,
    Download.download_to resolve_example [("sra", ["SRR1"]); ("ena", [])]
      (fun _ => ret (Download.SRA_manipulator resolve_example sra_not_ready))
      3 (fun _ => 0%nat) "data" (Some "logs") 8 world_with_logs
    = (Raised TypeError w2, []).
Proof.
  eexists.
  eapply (download_to_source_not_ready_raises resolve_example _
            "sra" ["SRR1"] [("ena", [])]
            (Download.SRA_manipulator resolve_example sra_not_ready)
            3 (fun _ => 0%nat) "data" (Some "logs") 8 world_with_logs).
  - done.
  - vm_compute. reflexivity.
  - reflexivity.
  - reflexivity.
  - vm_compute. lia.
Defined.

(** ** [download_to]: from the register to the [JobManager] *)

Section SubmissionCutShort.
Import Download.

(** with too little fuel the submission loop is cut short *)
Lemma submission_turns_short (jobs : dict (list (option job_ref)))
    (fuel : nat) :
  forall (n r : nat) (e : Engine),
    NoDup (dict_keys jobs) ->
    longest jobs = (r + n)%nat -> (fuel < n)%nat ->
    exists e',
      while fuel (fun st => ret (0 <? st.2)%Z) (submission_round jobs)
            (idxs_at r jobs, total_at r jobs) e
      = Unfinished e'.
Proof.
  induction fuel as [|fuel IH]; intros n r e Hnd Hlong Hfuel;
    rewrite while_unfold; unfold bind at 1, ret at 1; cbn [snd];
    (assert ((0 <? total_at r jobs)%Z = true) as ->
        by (apply Z.ltb_lt, total_at_pos; lia)).
  - by eexists.
  - unfold bind at 1. rewrite submission_round_turn by done.
    apply (IH (n - 1)%nat (S r)); [done | lia | lia].
Qed.

(** whatever the fuel, a submission that returns was round robin *)
Lemma submit_jobs_Returned_inv (jobs : dict (list (option job_ref)))
    (fuel : nat) (e : Engine) st e' :
  NoDup (dict_keys jobs) ->
  submit_jobs fuel jobs e = Returned st e' ->
  e' = {| calls := calls e ++ (add_job <$> round_robin jobs);
           replies := replies e |}.
Proof.
  intros Hnd H. destruct (decide (longest jobs <= fuel)%nat) as [Hle|Hgt].
  - rewrite submit_jobs_Returned in H by done. by inversion H.
  - exfalso. unfold submit_jobs in H.
    pose proof (submission_lengths jobs [] [] e Hnd) as Hl.
    rewrite app_nil_l in Hl. simpl app in Hl.
    rewrite (bind_run _ _ _ _ _ Hl) in H.
    rewrite total_at_0, idxs_at_0 in H by done.
    destruct (submission_turns_short jobs fuel (longest jobs) 0 e Hnd)
      as [e'' He'']; [done | lia |].
    by rewrite He'' in H.
Qed.

End SubmissionCutShort.

Section JobsMade.
Import Download.

Variable src_manager_get : string -> M World Manipulator.
Variable datadir : string.

(** lines 47 to 55 for one source, from the store [w] to the store [w']:
    the list [js] it gets in the dictionary is what [jobs_from_accessions]
    returned, or stays empty when the source has no accession or its
    downloader is not ready; after [jobs_from_accessions], only the log
    changes *)
Definition source_jobs (source : string) (reg : list string) (w : World)
    (js : list (option job_ref)) (w' : World) : Prop :=
  exists manipulator w1,
    src_manager_get source w = Returned manipulator w1 /\
    if (0 <? length reg)%nat then
      exists ready w2,
        is_ready manipulator w1 = Returned ready w2 /\
        if ready then
          exists w3,
            jobs_from_accessions manipulator reg datadir w2 = Returned js w3 /\
            w' = set_logged (logged w') w3
        else js = [] /\ w' = w2
    else js = [] /\ w' = w1.

(** the sources of the register, one after the other *)
Inductive jobs_made
  : World -> dict (list string) -> dict (list (option job_ref)) -> World
    -> Prop :=
  | jobs_made_nil w : jobs_made w [] [] w
  | jobs_made_cons w source reg js w1 register jobs w' :
      source_jobs source reg w js w1 ->
      jobs_made w1 register jobs w' ->
      jobs_made w ((source, reg) :: register) ((source, js) :: jobs) w'.

Lemma jobs_made_snoc w register jobs w1 source reg js w' :
  jobs_made w register jobs w1 ->
  source_jobs source reg w1 js w' ->
  jobs_made w (register ++ [(source, reg)]) (jobs ++ [(source, js)]) w'.
Proof.
  intros H Hs. induction H as [w|w s r j w1 register jobs w2 H1 H2 IH].
  - apply jobs_made_cons with w'; [done|apply jobs_made_nil].
  - simpl. apply jobs_made_cons with w1; [done|]. by apply IH.
Qed.

Lemma jobs_made_keys w register jobs w' :
  jobs_made w register jobs w' -> dict_keys jobs = dict_keys register.
Proof.
  induction 1 as [|w s r j w1 register jobs w2 H1 H2 IH]; [done|].
  unfold dict_keys in *. simpl. by f_equal.
Qed.

Lemma logger_info_logs msg w a w' :
  logger_info msg w = Returned a w' -> w' = set_logged (logged w') w.
Proof.
  unfold logger_info. destruct (_ <=? _)%nat; intros H; inversion H; subst.
  - done.
  - by destruct w'.
Qed.

Lemma create_jobs_made (acc_by_src : dict (list string)) w jobs w' :
  NoDup (dict_keys acc_by_src) ->
  create_jobs acc_by_src src_manager_get datadir w = Returned jobs w' ->
  jobs_made w acc_by_src jobs w'.
Proof.
  intros Hnd H. unfold create_jobs in H.
  apply (for_each_Returned
           (fun seen_keys jobs s =>
              exists seen rest made,
                acc_by_src = seen ++ rest /\ dict_keys seen = seen_keys /\
                jobs = made ++ ((fun sl => (sl.1, [])) <$> rest) /\
                jobs_made w seen made s)) in H.
  - destruct H as (seen & rest & made & Heq & Hk & -> & Hmade).
    assert (rest = []) as ->.
    { apply (f_equal (fun d => length (dict_keys d))) in Heq.
      unfold dict_keys in *. rewrite fmap_app, length_app, Hk in Heq.
      rewrite !length_fmap in Heq. destruct rest; [done|simpl in Heq; lia]. }
    rewrite app_nil_r in *. by subst.
  - exists [], acc_by_src, []. split; [done|]. split; [done|].
    split; [|apply jobs_made_nil].
    rewrite dict_from_keys_NoDup by done.
    unfold dict_keys. rewrite <- list_fmap_compose. done.
  - clear H jobs w'.
    intros seen_keys source jobs1 s1 jobs2 s2 [rest_keys Hkeys]
           (seen & rest & made & Heq & Hk & -> & Hmade) Hb.
    assert (Hrest : dict_keys rest = source :: rest_keys).
    { rewrite Heq in Hkeys. unfold dict_keys in *.
      rewrite fmap_app, Hk in Hkeys. by apply app_inv_head in Hkeys. }
    destruct rest as [|[source' reg] rest]; [done|].
    simpl in Hrest. inversion Hrest; subst source'; clear Hrest.
    assert (Hs : source ∉ dict_keys seen).
    { rewrite Heq in Hnd. unfold dict_keys in *. rewrite fmap_app in Hnd.
      apply NoDup_app in Hnd as (_ & Hd & _). intros Hin.
      apply (Hd source Hin). by left. }
    assert (Hsm : source ∉ dict_keys made)
      by (by rewrite (jobs_made_keys _ _ _ _ Hmade)).
    apply bind_Returned in Hb as (reg' & s & Hm & Hb).
    unfold subscript in Hm. rewrite Heq in Hm.
    rewrite dict_get_app_notin, dict_get_head in Hm by done.
    apply ret_Returned in Hm as [-> ->].
    apply bind_Returned in Hb as (manipulator & w1 & Hget & Hb).
    subst seen_keys.
    assert (Hnew : forall js s',
              source_jobs source reg s1 js s' ->
              exists seen0 rest0 made0,
                acc_by_src = seen0 ++ rest0 /\
                dict_keys seen0 = dict_keys seen ++ [source] /\
                made ++ (source, js) :: ((fun sl => (sl.1, [])) <$> rest)
                = made0 ++ ((fun sl => (sl.1, [])) <$> rest0) /\
                jobs_made w seen0 made0 s').
    { intros js s' Hsj.
      exists (seen ++ [(source, reg)]), rest, (made ++ [(source, js)]).
      split; [by rewrite <- app_assoc|].
      split; [unfold dict_keys; by rewrite fmap_app|].
      split; [by rewrite <- app_assoc|]. by apply jobs_made_snoc with s1. }
    destruct (0 <? length reg)%nat eqn:Hlen.
    + apply bind_Returned in Hb as (ready & w2 & Hready & Hb).
      destruct ready.
      * apply bind_Returned in Hb as (js & w3 & Hjobs & Hb).
        apply bind_Returned in Hb as (? & w4 & Hlog & Hb).
        apply ret_Returned in Hb as [-> ->].
        rewrite fmap_cons, dict_set_app_notin, dict_set_head by done.
        apply Hnew. exists manipulator, w1. split; [done|]. rewrite Hlen.
        exists true, w2. split; [done|]. exists w3. split; [done|].
        by eapply logger_info_logs.
      * apply bind_Returned in Hb as (? & w4 & Hlog & Hb).
        apply ret_Returned in Hb as [-> ->].
        rewrite fmap_cons. apply Hnew.
        exists manipulator, w1. split; [done|]. rewrite Hlen.
        exists false, w2. split; [done|]. split; [done|].
        unfold logger_warning_file in Hlog.
        destruct (_ <=? _)%nat; by inversion Hlog.
    + apply ret_Returned in Hb as [-> ->].
      rewrite fmap_cons. apply Hnew.
      exists manipulator, w1. split; [done|]. by rewrite Hlen.
Qed.

End JobsMade.

Section EndToEnd.
Import Download.

Variable resolve : string -> FS.loc.
Variable acc_by_src : dict (list string).
Variable src_manager_get : string -> M World Manipulator.

(** A call of [download_to] that returns has made the directories, has
    asked the sources, one after the other, for their jobs, and then, on one
    [JobManager], has called [start], [add_job] for every job that a call of
    [jobs_from_accessions] returned, exactly once and in round-robin order
    over the sources, polled until [remaining_jobs()] returned 0, and called
    [stop] and [join]. *)
Theorem download_to_returns_after_submitting_all
    (fuel : nat) (answers : nat -> nat)
    (datadir : string) (logdir : option string) (max_process : nat)
    (w w' : World) (t : list Action) :
  NoDup (dict_keys acc_by_src) ->
  download_to resolve acc_by_src src_manager_get fuel answers
    datadir logdir max_process w = (Returned tt w', t) ->
  exists w0 jobs polls,
    prepare_directories resolve datadir logdir w = Returned tt w0 /\
    create_jobs acc_by_src src_manager_get datadir w0 = Returned jobs w' /\
    jobs_made src_manager_get datadir w0 acc_by_src jobs w' /\
    dict_keys jobs = dict_keys acc_by_src /\
    t = [JobManager_new max_process logdir; start]
          ++ (add_job <$> round_robin jobs)
          ++ polls ++ [remaining_jobs 0; stop; join] /\
    Forall waiting polls /\
    round_robin jobs ≡ₚ concat jobs.*2.
Proof.
  intros Hnd H. unfold download_to in H.
  remember ((prepare_directories resolve datadir logdir ;;
             create_jobs acc_by_src src_manager_get datadir) w) as p eqn:Hp.
  destruct p as [jobs w1|x w1|w1]; [|done|done].
  symmetry in Hp.
  apply bind_Returned in Hp as ([] & w0 & Hprep & Hcreate).
  pose proof (create_jobs_made _ _ _ _ _ _ Hnd Hcreate) as Hmade.
  pose proof (jobs_made_keys _ _ _ _ _ _ Hmade) as Hkeys.
  assert (Hndj : NoDup (dict_keys jobs)) by (by rewrite Hkeys).
  rewrite run_jobs_unfold in H.
  destruct (submit_jobs fuel jobs _) as [st e1|x e1|e1] eqn:Hsub;
    [|done|done].
  apply submit_jobs_Returned_inv in Hsub as ->; [|done].
  pose proof (wait_loop fuel
                {| calls := [JobManager_new max_process logdir; start]
                            ++ (add_job <$> round_robin jobs);
                   replies := answers |}) as Hw.
  cbn [calls replies] in H.
  destruct (while fuel _ _ tt _) as [? e2|? e2|e2]; [|done|done].
  destruct Hw as (polls & Hw & Hc2). cbn [calls] in Hc2.
  inversion H; subst; clear H.
  exists w0, jobs, polls. split; [done|]. split; [done|]. split; [done|].
  split; [done|].
  split; [|split; [done|by apply turns_permutation]].
  rewrite Hc2, <- !app_assoc. done.
Qed.

End EndToEnd.

Lemma download_to_returns_after_submitting_all_witness :
  exists w' t w0 jobs polls,
    Download.download_to resolve_example register_example sources_example
      6 (fun k => (1 - k)%nat) "data" (Some "logs") 8 world_example
      = (Returned tt w', t) /\
    jobs_made sources_example "data" w0 register_example jobs w' /\
    Download.dict_keys jobs = ["sra"; "ena"; "ncbi"] /\
    t = [JobManager_new 8 (Some "logs"); start]
          ++ (add_job <$> round_robin jobs)
          ++ polls ++ [remaining_jobs 0; stop; join] /\
    Forall waiting polls /\
    round_robin jobs ≡ₚ concat jobs.*2.
Proof.
  eexists _, _.
  edestruct (download_to_returns_after_submitting_all resolve_example
               register_example sources_example 6 (fun k => (1 - k)%nat)
               "data" (Some "logs") 8 world_example)
    as (w0 & jobs & polls & _ & _ & H2 & H3 & H4 & H5 & H6).
  - apply (bool_decide_unpack _). vm_compute. exact I.
  - vm_compute. reflexivity.
  - exists w0, jobs, polls. split; [vm_compute; reflexivity|]. by repeat split.
Defined.

(** ** [SRA.jobs_from_accessions]: what it skips and what it leaves *)

Section SRAMore.

Variable resolve : string -> FS.loc.
Variable self : SRA.t.
Variable datadir : string.

(** the records of the accessions passed over *)
Definition sra_skipped_records (w : World) (accessions : list string)
  : list (nat * string) :=
  if (logger_level w <=? INFO)%nat
  then (fun acc => (INFO, acc +:+ " already downloaded. Skipping..."))
         <$> accessions
  else [].

(** When every accession is already in the data directory,
    [SRA.jobs_from_accessions] returns the empty list: it creates no job
    and no directory, and only logs one record for each accession. *)
Theorem sra_all_downloaded_no_jobs
    (accessions : list string) (w : World) :
  (forall acc, acc ∈ accessions ->
     is_Some (fs w !! resolve (Py.path_join datadir acc))) ->
  SRA.jobs_from_accessions resolve self accessions datadir w
  = Returned [] (set_logged (logged w ++ sra_skipped_records w accessions) w).
Proof.
  unfold SRA.jobs_from_accessions.
  assert (Hgen : forall accs jobs w0,
     fs w0 = fs w -> logger_level w0 = logger_level w ->
     (forall acc, acc ∈ accs ->
        is_Some (fs w !! resolve (Py.path_join datadir acc))) ->
     for_each accs
       (fun jobs acc =>
          let* downloaded := path_exists resolve (Py.path_join datadir acc) in
          if downloaded then
            logger_info (acc +:+ " already downloaded. Skipping...") ;;
            ret jobs
          else
            let* new := SRA.accession_jobs resolve self datadir acc in
            ret (jobs ++ new)) jobs w0
     = Returned jobs
         (set_logged (logged w0 ++ sra_skipped_records w accs) w0)).
  { induction accs as [|acc accs IH]; intros jobs w0 Hfs Hlv Hall.
    - simpl. unfold ret, sra_skipped_records.
      destruct (_ <=? _)%nat; rewrite app_nil_r; by destruct w0.
    - cbn [for_each]. unfold bind at 1. unfold bind at 1, path_exists at 1.
      unfold FS.exists_. rewrite Hfs.
      destruct (Hall acc ltac:(by left)) as [n ->].
      unfold bind at 1, logger_info at 1, ret at 1.
      unfold sra_skipped_records in *. rewrite Hlv.
      destruct (logger_level w <=? INFO)%nat eqn:E.
      + rewrite IH; [|done|done|intros; apply Hall; by right].
        cbn [logged set_logged logger_level].
        rewrite fmap_cons, <- app_assoc. done.
      + by rewrite IH; [|done|done|intros; apply Hall; by right]. }
  intros Hall. by apply Hgen.
Qed.

(** A call that returns has left every job that was in the store as it
    was, and has only added jobs after them. *)
Theorem sra_jobs_keep_the_store
    (accessions : list string) (w : World) (jobs : list (option job_ref))
    (w' : World) :
  SRA.jobs_from_accessions resolve self accessions datadir w
    = Returned jobs w' ->
  heap w `prefix_of` heap w' /\
  forall j J, heap w !! j = Some J -> heap w' !! j = Some J.
Proof.
  intros H. unfold SRA.jobs_from_accessions in H.
  apply (for_each_Returned
           (fun (_ : list string) (_ : list (option job_ref)) s =>
              heap w `prefix_of` heap s)) in H.
  - split; [done|]. intros j J Hj. by eapply prefix_lookup_Some.
  - done.
  - clear. intros seen acc jobs1 s1 jobs2 s2 _ Hpre Hb.
    apply bind_Returned in Hb as (downloaded & s & Hm & Hb).
    apply path_exists_Returned in Hm as ->.
    destruct downloaded.
    + apply bind_Returned in Hb as (? & s & Hm & Hb).
      apply logger_info_Returned in Hm.
      apply ret_Returned in Hb as [-> ->]. by rewrite Hm.
    + apply bind_Returned in Hb as (new & s & Hm & Hb).
      apply ret_Returned in Hb as [-> ->].
      apply accession_jobs_Returned in Hm as (_ & -> & _).
      etrans; [exact Hpre|]. by apply prefix_app_r.
Qed.

(** Without the toolkit ([binaries] is [None]), a call that returns has
    made no command job: every processed accession starts with none of the
    three prefixes, and the list holds nothing but [None] entries and clean
    jobs without parents. *)
Theorem sra_without_toolkit_only_clean_jobs
    (accessions : list string) (w : World) (jobs : list (option job_ref))
    (w' : World) :
  SRA.binaries self = None ->
  SRA.jobs_from_accessions resolve self accessions datadir w
    = Returned jobs w' ->
  Forall (fun o =>
            o = None \/
            exists c C, o = Some c /\ heap w' !! c = Some C /\
                        parents C = [] /\
                        exists args,
                          kind C = Callable SRA_move_and_clean args)
         jobs.
Proof.
  intros Hb H. apply sra_jobs_Returned in H as (segs & _ & -> & Hst & Htk).
  apply Forall_concat, Forall_fmap. rewrite Forall_forall in *.
  intros [acc n] Hin. specialize (Hst _ Hin). specialize (Htk _ Hin Hb).
  unfold sra_stored in Hst. simpl in *. destruct Htk as [E1 E2].
  unfold sra_accession_refs, sra_accession_heap in *.
  rewrite Hb, ?E1, ?E2 in *.
  pose proof (Hst 0%nat _ eq_refl) as H0. rewrite Nat.add_0_r in H0.
  apply Forall_cons. split; [by left|].
  apply Forall_cons. split; [|apply Forall_nil_2].
  right. exists n. eexists. split; [done|]. split; [exact H0|].
  split; [done|]. by eexists.
Qed.

End SRAMore.

Lemma sra_all_downloaded_no_jobs_witness :
  SRA.jobs_from_accessions resolve_example sra_example ["SRR1"] "data"
    world_with_read
  = Returned []
      (set_logged
         (logged world_with_read
            ++ sra_skipped_records world_with_read ["SRR1"])
         world_with_read).
Proof.
  apply (sra_all_downloaded_no_jobs resolve_example sra_example "data"
           ["SRR1"] world_with_read).
  intros acc Hacc. apply list_elem_of_singleton in Hacc. subst acc.
  vm_compute. by eexists.
Defined.

Lemma sra_jobs_keep_the_store_witness :
  exists jobs w',
    SRA.jobs_from_accessions resolve_example sra_example
      ["SRR1"; "SRR2"; "ERR3"] "data" world_with_read = Returned jobs w' /\
    heap world_with_read `prefix_of` heap w' /\
    forall j J, heap world_with_read !! j = Some J -> heap w' !! j = Some J.
Proof.
  eexists _, _. split; [vm_compute; reflexivity|].
  eapply (sra_jobs_keep_the_store resolve_example sra_example "data"
            ["SRR1"; "SRR2"; "ERR3"] world_with_read).
  vm_compute. reflexivity.
Defined.

Lemma sra_without_toolkit_only_clean_jobs_witness :
  exists jobs w',
    SRA.jobs_from_accessions resolve_example sra_not_ready
      ["ERR3"; "DRR4"] "data" world_with_read = Returned jobs w' /\
    Forall (fun o =>
              o = None \/
              exists c C, o = Some c /\ heap w' !! c = Some C /\
                          parents C = [] /\
                          exists args,
                            kind C = Callable SRA_move_and_clean args)
           jobs.
Proof.
  eexists _, _. split; [vm_compute; reflexivity|].
  eapply (sra_without_toolkit_only_clean_jobs resolve_example sra_not_ready
            "data" ["ERR3"; "DRR4"] world_with_read).
  - reflexivity.
  - vm_compute. reflexivity.
Defined.

(** ** [NCBI.jobs_from_accessions]: what it adds and when it fails *)

(** A call that returns has made four jobs for every batch of five
    accessions, all of them new and none of them [None], has left the jobs
    that were in the store as they were, and has advanced the counter by the
    number of batches. *)
Theorem ncbi_jobs_are_new_and_counted
    (resolve : string -> FS.loc) (self : NCBI.t) (accessions : list string)
    (dest_dir : string) (w : World) (jobs : list (option job_ref)) (w' : World) :
  NCBI.jobs_from_accessions resolve self accessions dest_dir w
    = Returned jobs w' ->
  let n := ((length accessions + 4) / 5)%nat in
  length jobs = (4 * n)%nat /\
  NoDup jobs /\
  (forall o, o ∈ jobs ->
     exists j, o = Some j /\ (length (heap w) <= j < length (heap w'))%nat) /\
  length (heap w') = (length (heap w) + 4 * n)%nat /\
  (forall j J, heap w !! j = Some J -> heap w' !! j = Some J) /\
  ncbi_joib_id w' = (ncbi_joib_id w + n)%nat.
Proof.
  intros H. apply ncbi_jobs_Returned in H as (-> & Hc & Hlen & Hold & _).
  cbv zeta. rewrite Hlen.
  split; [by rewrite length_fmap, length_seq|].
  split; [apply (NoDup_fmap_2 _), NoDup_seq|].
  split; [|split; [done|split; [|done]]].
  - intros o (j & -> & Hj%elem_of_seq)%list_elem_of_fmap.
    exists j. split; [done|lia].
  - intros j J Hj. rewrite Hold; [done|]. by eapply lookup_lt_Some.
Qed.

Lemma ncbi_jobs_are_new_and_counted_witness :
  exists jobs w',
    ncbi_second_run_example world_with_read = Returned jobs w' /\
    length jobs = 4%nat /\
    NoDup jobs /\
    (forall o, o ∈ jobs ->
       exists j, o = Some j /\
                 (length (heap world_with_read) <= j < length (heap w'))%nat) /\
    length (heap w') = (length (heap world_with_read) + 4)%nat /\
    (forall j J, heap world_with_read !! j = Some J ->
                 heap w' !! j = Some J) /\
    ncbi_joib_id w' = 1%nat.
Proof.
  eexists _, _. split; [vm_compute; reflexivity|].
  apply (ncbi_jobs_are_new_and_counted resolve_example ncbi_example
           ["GCF_7"] "data" world_with_read).
  vm_compute. reflexivity.
Defined.

(** When the temporary directory of the first batch cannot be made, the
    call raises what [makedirs] raises and has changed nothing: no job is
    made and the counter is not advanced. *)
Theorem ncbi_first_batch_makedirs_fails
    (resolve : string -> FS.loc) (self : NCBI.t) (accessions : list string)
    (dest_dir : string) (w : World) (e : Exn) :
  accessions ≠ [] ->
  FS.makedirs true (resolve (NCBI.batch_tmp_dir self (ncbi_joib_id w))) (fs w)
    = inl e ->
  NCBI.jobs_from_accessions resolve self accessions dest_dir w = Raised e w.
Proof.
  intros Hne Hmk. unfold NCBI.jobs_from_accessions.
  assert (Hr : exists idxs, range_step (length accessions) 5 = 0%nat :: idxs).
  { unfold range_step. destruct accessions as [|a l]; [done|].
    assert (Hn : (0 < (length (a :: l) + 5 - 1) / 5)%nat).
    { apply Nat.div_str_pos. simpl. lia. }
    destruct ((length (a :: l) + 5 - 1) / 5)%nat as [|k]; [lia|].
    simpl. by eexists. }
  destruct Hr as [idxs ->]. cbn [for_each].
  unfold bind at 1, NCBI.batch_jobs at 1.
  unfold bind at 1, NCBI.get_joib_id at 1.
  unfold bind at 1, makedirs at 1, fs_update at 1.
  by rewrite Hmk.
Qed.

(** the temporary directory of batch 0 is taken by a regular file *)
Definition world_with_blocked_tmp : World :=
  {| fs := {[ ["tmp"] := FS.Dir; ["tmp"; "ncbi_0"] := FS.File ]};
     heap := []; ncbi_joib_id := 0; logger_level := INFO; logged := [] |}.

Lemma ncbi_first_batch_makedirs_fails_witness :
  NCBI.jobs_from_accessions resolve_example ncbi_example ["GCA_1"] "data"
    world_with_blocked_tmp
  = Raised FileExistsError world_with_blocked_tmp.
Proof.
  apply (ncbi_first_batch_makedirs_fails resolve_example ncbi_example
           ["GCA_1"] "data" world_with_blocked_tmp FileExistsError).
  - done.
  - vm_compute. reflexivity.
Defined.
